(** * The mailbox ingestion pipeline of [email-parser.py]

    A shallow embedding of the script: the word counter, the usage tracker,
    the body extraction, the three service adapters and the per-message loop
    of [main], followed by the properties of the pipeline.

    Python integers are [Z], text is [string], a value that may be [None]
    is an [option], a dictionary read from JSON is a [gmap] and the
    statements that can raise live in a small state-and-exception monad. *)

From Stdlib Require Import ZArith QArith Lia Ascii String.
From stdpp Require Import base strings list gmap.

Local Open Scope string_scope.
Local Open Scope Z_scope.
Local Open Scope list_scope.

(** ** Exceptions *)

Inductive exn : Type :=
| ZeroDivisionError      (* a division by [word_limit = 0] in [get_stats] *)
| DecodeError            (* [urlsafe_b64decode] or [bytes.decode] refused the data *)
| GmailError             (* the Gmail client raised *)
| InitError.             (* building a service client raised *)

(** ** The runtime the script runs on

    Two library functions are not code of the script: the class [\w] of
    the [re] module outside ASCII (it is read from the interpreter's Unicode
    tables) and [base64.urlsafe_b64decode(d).decode()].  They are taken as
    they come; [None] stands for a raised exception. *)

Record runtime : Type := {
  unicode_word : ascii → bool;
  b64decode_utf8 : string → option string
}.

(** ** WordCounter: [count_words] *)

Section WordCounter.
Variable R : runtime.

(** [\w]: a letter, a digit or the underscore. *)
Definition is_word_char (c : ascii) : bool :=
  let n := Z.of_nat (nat_of_ascii c) in
  if n <? 128 then
    ((48 <=? n) && (n <=? 57)) || ((65 <=? n) && (n <=? 90))
    || (n =? 95) || ((97 <=? n) && (n <=? 122))
  else unicode_word R c.

(** [re.findall(r'\b\w+\b', text)]: the maximal runs of word characters,
    from left to right.  [cur] is the run being read, if any. *)
Fixpoint findall_words (cur : option string) (text : string) : list string :=
  match text with
  | EmptyString => match cur with Some w => [w] | None => [] end
  | String c rest =>
      if is_word_char c then
        findall_words (Some (default "" cur +:+ String c "")) rest
      else
        match cur with
        | Some w => w :: findall_words None rest
        | None => findall_words None rest
        end
  end.

Definition count_words (text : string) : Z :=
  Z.of_nat (length (findall_words None text)).
End WordCounter.

(** ** UsageLedger: [UsageTracker] *)

Record UsageTracker : Type := {
  word_count : Z;
  word_limit : Z;
  emails_processed : Z
}.

(** [UsageTracker.__init__] *)
Definition UsageTracker_init (limit : Z) : UsageTracker :=
  {| word_count := 0; word_limit := limit; emails_processed := 0 |}.

(** [UsageTracker.add_usage]: the words charged and the tracker after. *)
Definition add_usage (R : runtime) (self : UsageTracker) (text : string)
  : Z * UsageTracker :=
  let words := count_words R text in
  (words,
   {| word_count := word_count self + words;
      word_limit := word_limit self;
      emails_processed := emails_processed self + 1 |}).

(** [UsageTracker.get_stats]: the integer entries of the dictionary.  The
    two ratios are floating point and are left out, except that the
    percentage divides by [word_limit] and so raises when it is zero. *)
Record usage_stats : Type := {
  total_words : Z;
  words_remaining : Z;
  stats_emails_processed : Z
}.

Definition get_stats (self : UsageTracker) : exn + usage_stats :=
  if word_limit self =? 0 then inl ZeroDivisionError
  else inr {| total_words := word_count self;
              words_remaining := word_limit self - word_count self;
              stats_emails_processed := emails_processed self |}.

(** ** Messages, records and responses *)

(** An entry of the listing: [message_meta['id']]. *)
Record message_meta : Type := { meta_id : string }.

(** A Gmail message in [format='full']: the payload with its headers, its
    [parts] when the key is present, and its [body] when present; a body
    carries [data] or not. *)
Record part_body : Type := { body_data : option string }.
Record message_part : Type := { part_mimeType : string; part_body_of : part_body }.
Record message : Type := {
  payload_headers : list (string * string);
  payload_parts : option (list message_part);
  payload_body : option part_body
}.

(** The dictionary [email_data]; a score key that is absent is [None]. *)
Record email_data : Type := {
  message_id : string;
  sender : string;
  body : string;
  gpt_zero_ai : option Q;
  gpt_zero_human : option Q
}.

(** A row of the table [emails], as far as it is read: a column that is
    null (or missing) is [None]. *)
Record row : Type := {
  row_gpt_zero_ai : option Q;
  row_gpt_zero_human : option Q
}.

(** What the classifier's JSON holds, as far as it is read:
    [result['documents'][0]['class_probabilities']], a dictionary from
    class names to what the JSON holds under them: a probability, or
    [null], which Python reads as [None]. *)
Record document : Type := {
  class_probabilities : option (gmap string (option Q))
}.
Record api_result : Type := { documents : option (list document) }.

Inductive select_response : Type :=
| SelectRaises
| SelectData (rows : list row).

Inductive get_response : Type :=
| GetRaises
| GetMessage (m : message).

(** [requests.post]: it raises, or answers with a status code and a body
    whose [json()] raises ([None]) or parses. *)
Inductive post_response : Type :=
| PostRaises
| PostResponse (status_code : Z) (json : option api_result).

(** ** The services

    The record store, the mailbox and the classifier are outside the
    script.  Each call of the loop is answered by the service; the answer
    may depend on the iteration [i] of [enumerate(messages, 1)] and on the
    argument of the call. *)
Record services : Type := {
  services_init : bool;                         (* both clients were built *)
  gmail_list : option (list message_meta);      (* [None]: the listing raised *)
  supabase_select : nat → string → select_response;
  gmail_get : nat → string → get_response;
  gptzero_post : nat → string → post_response;
  supabase_upsert : nat → email_data → bool     (* [false]: the upsert raised *)
}.

(** The calls made to the services, in order, as a spy would record them. *)
Inductive event : Type :=
| StoreSelect (i : nat) (mid : string)
| GmailGet (i : nat) (mid : string)
| ClassifierPost (i : nat) (text : string)
| StoreUpsert (i : nat) (data : email_data) (ok : bool)
| Sleep (i : nat) (seconds : Z).

Definition event_index (e : event) : nat :=
  match e with
  | StoreSelect i _ | GmailGet i _ | ClassifierPost i _
  | StoreUpsert i _ _ | Sleep i _ => i
  end.

(** ** The state of a run and its monad

    [main] owns the tracker and the dictionary [stats]; the trace is the
    spy's record.  A statement either returns or raises, and what it did to
    the state before raising stays done. *)

Record Stats : Type := {
  processed : Z;
  skipped_existing : Z;
  skipped_rate_limit : Z;
  errors : Z
}.

Record state : Type := {
  usage_tracker : UsageTracker;
  stats : Stats;
  trace : list event
}.

Definition M (A : Type) : Type := state → (exn + A) * state.

#[export] Instance M_ret : MRet M := λ A a st, (inr a, st).
#[export] Instance M_bind : MBind M := λ A B k m st,
  match m st with
  | (inl e, st') => (inl e, st')
  | (inr a, st') => k a st'
  end.

Definition raise {A : Type} (e : exn) : M A := λ st, (inl e, st).
Definition get_tracker : M UsageTracker := λ st, (inr (usage_tracker st), st).
Definition set_tracker (ut : UsageTracker) : M unit := λ st,
  (inr tt, {| usage_tracker := ut; stats := stats st; trace := trace st |}).
Definition set_stats (f : Stats → Stats) : M unit := λ st,
  (inr tt, {| usage_tracker := usage_tracker st; stats := f (stats st);
              trace := trace st |}).
Definition call (e : event) : M unit := λ st,
  (inr tt, {| usage_tracker := usage_tracker st; stats := stats st;
              trace := trace st ++ [e] |}).

(** [stats[key] += 1] for each of the four keys. *)
Definition incr_processed (s : Stats) : Stats :=
  {| processed := processed s + 1; skipped_existing := skipped_existing s;
     skipped_rate_limit := skipped_rate_limit s; errors := errors s |}.
Definition incr_skipped_existing (s : Stats) : Stats :=
  {| processed := processed s; skipped_existing := skipped_existing s + 1;
     skipped_rate_limit := skipped_rate_limit s; errors := errors s |}.
Definition incr_skipped_rate_limit (s : Stats) : Stats :=
  {| processed := processed s; skipped_existing := skipped_existing s;
     skipped_rate_limit := skipped_rate_limit s + 1; errors := errors s |}.
Definition incr_errors (s : Stats) : Stats :=
  {| processed := processed s; skipped_existing := skipped_existing s;
     skipped_rate_limit := skipped_rate_limit s; errors := errors s + 1 |}.

Definition Stats_init : Stats :=
  {| processed := 0; skipped_existing := 0; skipped_rate_limit := 0; errors := 0 |}.

(** ** Header lookup *)

(** [str.lower] on the letters A to Z; other characters are kept. *)
Definition lower_char (c : ascii) : ascii :=
  let n := nat_of_ascii c in
  if ((65 <=? n) && (n <=? 90))%nat then ascii_of_nat (n + 32) else c.

Fixpoint lower (s : string) : string :=
  match s with
  | EmptyString => EmptyString
  | String c rest => String (lower_char c) (lower rest)
  end.

(** [next((h['value'] for h in headers if h['name'].lower() == 'from'), '')] *)
Fixpoint header_from (headers : list (string * string)) : string :=
  match headers with
  | [] => ""
  | (name, value) :: rest =>
      if String.eqb (lower name) "from" then value else header_from rest
  end.

(** ** Reading the answers of the services *)

(** The [try] of [check_email_exists], on the answer of the select:
    [(exists, has_scores)]. *)
Definition read_exists (response : select_response) : bool * bool :=
  match response with
  | SelectData (email :: _) =>
      let has_scores :=
        bool_decide (row_gpt_zero_ai email ≠ None)
        && bool_decide (row_gpt_zero_human email ≠ None) in
      (true, has_scores)
  | SelectData [] => (false, false)
  | SelectRaises => (false, false)
  end.

(** The [try] of [get_gptzero_scores], on the answer of the request: the
    pair [(scores.get('ai', 0), scores.get('human', 0))], each the value
    stored under the key ([None] for a [null]) or 0 when the key is
    missing; or [(None, None)] on a refusal, an error status or an
    exception (a missing key, an empty list of documents, a body that is
    not JSON). *)
Definition read_scores (response : post_response) : option Q * option Q :=
  match response with
  | PostResponse status_code json =>
      if status_code =? 200 then
        match json with
        | Some result =>
            match documents result with
            | Some (doc :: _) =>
                match class_probabilities doc with
                | Some scores =>
                    (default (Some 0%Q) (scores !! "ai"),
                     default (Some 0%Q) (scores !! "human"))
                | None => (None, None)
                end
            | _ => (None, None)
            end
        | None => (None, None)
        end
      else if status_code =? 429 then (None, None)
      else (None, None)
  | PostRaises => (None, None)
  end.

(** ** The pipeline *)

Inductive control : Type := Continue | Break.

Section Pipeline.
Variable R : runtime.
Variable srv : services.

(** [get_email_body]: the loop over the parts returns at the first part
    that is [text/plain] and carries data ([Some]: it returned or raised
    there, [None]: it ran to its end). *)
Definition decode (d : string) : exn + string :=
  match b64decode_utf8 R d with
  | Some text => inr text
  | None => inl DecodeError
  end.

Fixpoint for_parts (parts : list message_part) : option (exn + string) :=
  match parts with
  | [] => None
  | part :: rest =>
      match body_data (part_body_of part) with
      | Some d =>
          if String.eqb (part_mimeType part) "text/plain"
          then Some (decode d) else for_parts rest
      | None => for_parts rest
      end
  end.

Definition get_email_body (m : message) : exn + string :=
  match payload_parts m with
  | Some parts =>
      match for_parts parts with
      | Some r => r
      | None => inr ""
      end
  | None =>
      match payload_body m with
      | Some b =>
          match body_data b with
          | Some d => decode d
          | None => inr ""
          end
      | None => inr ""
      end
  end.

(** [check_email_exists]: every exception of the lookup is caught
    inside and answered [(False, False)]. *)
Definition check_email_exists (i : nat) (mid : string) : M (bool * bool) :=
  call (StoreSelect i mid);;
  mret (read_exists (supabase_select srv i mid)).

(** [get_gptzero_scores]: the usage is charged first, then the request is
    made inside the [try]. *)
Definition get_gptzero_scores (i : nat) (text : string)
  : M (option Q * option Q) :=
  ut ← get_tracker;
  let '(words, ut') := add_usage R ut text in
  set_tracker ut';;
  match get_stats ut' with
  | inl e => raise e
  | inr _ =>
      call (ClassifierPost i text);;
      mret (read_scores (gptzero_post srv i text))
  end.

(** [upsert_email]: the result, or [None] when the upsert raised. *)
Definition upsert_email (i : nat) (data : email_data) : M (option unit) :=
  let ok := supabase_upsert srv i data in
  call (StoreUpsert i data ok);;
  mret (if ok then Some tt else None).

(** The body of the [try] of one iteration of the loop of [main]. *)
Definition loop_body (i : nat) (meta : message_meta) : M control :=
  let mid := meta_id meta in
  '(exists_, has_scores) ← check_email_exists i mid;
  if exists_ && has_scores then
    set_stats incr_skipped_existing;;
    mret Continue
  else
    call (GmailGet i mid);;
    match gmail_get srv i mid with
    | GetRaises => raise GmailError
    | GetMessage m =>
        let sender := header_from (payload_headers m) in
        match get_email_body m with
        | inl e => raise e
        | inr body =>
            if String.eqb body "" then
              set_stats incr_errors;;
              mret Continue
            else
              let words := count_words R body in
              ut ← get_tracker;
              let total_after := word_count ut + words in
              if total_after >? word_limit ut then mret Break
              else
                let data :=
                  {| message_id := mid; sender := sender; body := body;
                     gpt_zero_ai := None; gpt_zero_human := None |} in
                data ←
                  (if negb has_scores then
                     '(ai_score, human_score) ← get_gptzero_scores i body;
                     match ai_score, human_score with
                     | Some ai, Some human =>
                         set_stats incr_processed;;
                         mret {| message_id := mid; sender := sender;
                                 body := body; gpt_zero_ai := Some ai;
                                 gpt_zero_human := Some human |}
                     | _, _ =>
                         set_stats incr_skipped_rate_limit;;
                         mret data
                     end
                   else mret data);
                upsert_email i data;;
                call (Sleep i 2);;
                mret Continue
        end
    end.

(** One iteration with its [except Exception]: the error is counted and
    the loop goes on. *)
Definition loop_iteration (i : nat) (meta : message_meta) (st : state)
  : control * state :=
  match loop_body i meta st with
  | (inr c, st') => (c, st')
  | (inl _, st') => (Continue, (set_stats incr_errors st').2)
  end.

(** [for i, message_meta in enumerate(messages, i)]: it ends with the
    list or at the first [break]. *)
Fixpoint for_loop (i : nat) (messages : list message_meta) (st : state)
  : state :=
  match messages with
  | [] => st
  | meta :: rest =>
      match loop_iteration i meta st with
      | (Continue, st') => for_loop (S i) rest st'
      | (Break, st') => st'
      end
  end.

(** What [main] does after the loop: the counters and the usage
    statistics are printed. *)
Inductive main_result : Type :=
| NoMessages
| Completed (final : Stats) (usage : usage_stats)
| Fatal (e : exn).

Definition final_report (st : state) : main_result :=
  match get_stats (usage_tracker st) with
  | inr usage => Completed (stats st) usage
  | inl e => Fatal e
  end.

Definition initial_state (ut : UsageTracker) : state :=
  {| usage_tracker := ut; stats := Stats_init; trace := [] |}.

(** The loop and the final report, from a given tracker. *)
Definition process_messages (ut : UsageTracker) (messages : list message_meta)
  : main_result * state :=
  let st := for_loop 1 messages (initial_state ut) in
  (final_report st, st).

(** [main] *)
Definition main : main_result * state :=
  let usage_tracker := UsageTracker_init 300000 in
  if negb (services_init srv) then (Fatal InitError, initial_state usage_tracker)
  else
    match gmail_list srv with
    | None => (Fatal GmailError, initial_state usage_tracker)
    | Some [] => (NoMessages, initial_state usage_tracker)
    | Some messages => process_messages usage_tracker messages
    end.
End Pipeline.

(** ** Sequences of charges *)

(** [add_usage] called on each text in turn: the amounts returned and the
    tracker after the last call. *)
Fixpoint add_usage_all (R : runtime) (self : UsageTracker) (texts : list string)
  : list Z * UsageTracker :=
  match texts with
  | [] => ([], self)
  | text :: rest =>
      let '(words, self') := add_usage R self text in
      let '(charged, final) := add_usage_all R self' rest in
      (words :: charged, final)
  end.

Fixpoint sum_Z (l : list Z) : Z :=
  match l with
  | [] => 0
  | x :: rest => x + sum_Z rest
  end.

(** ** The paths of one iteration *)

Section Paths.
Variable R : runtime.
Variable srv : services.

(** [exists and has_scores], the test that skips a message. *)
Definition skips (i : nat) (mid : string) : bool :=
  let '(exists_, has_scores) := read_exists (supabase_select srv i mid) in
  exists_ && has_scores.

(** The message is not skipped, the mailbox hands out [m] and the
    extraction yields [body]. *)
Definition fetched (i : nat) (meta : message_meta) (m : message)
  (body : string) : Prop :=
  skips i (meta_id meta) = false
  ∧ gmail_get srv i (meta_id meta) = GetMessage m
  ∧ get_email_body R m = inr body.

(** The dictionary that is upserted, given what the classifier said. *)
Definition upserted (meta : message_meta) (m : message) (body : string)
  (scores : option Q * option Q) : email_data :=
  match scores with
  | (Some ai, Some human) =>
      {| message_id := meta_id meta;
         sender := header_from (payload_headers m); body := body;
         gpt_zero_ai := Some ai; gpt_zero_human := Some human |}
  | _ =>
      {| message_id := meta_id meta;
         sender := header_from (payload_headers m); body := body;
         gpt_zero_ai := None; gpt_zero_human := None |}
  end.

(** The counter that a classifier answer moves. *)
Definition count_scores (scores : option Q * option Q) (s : Stats) : Stats :=
  match scores with
  | (Some _, Some _) => incr_processed s
  | _ => incr_skipped_rate_limit s
  end.
End Paths.

(** Every iteration takes one of five paths. *)
Inductive path (R : runtime) (srv : services) (i : nat) (meta : message_meta)
  (st : state) : control * state → Prop :=
| path_skip :
    skips srv i (meta_id meta) = true →
    path R srv i meta st
      (Continue,
       {| usage_tracker := usage_tracker st;
          stats := incr_skipped_existing (stats st);
          trace := trace st ++ [StoreSelect i (meta_id meta)] |})
| path_error :
    skips srv i (meta_id meta) = false →
    path R srv i meta st
      (Continue,
       {| usage_tracker := usage_tracker st;
          stats := incr_errors (stats st);
          trace := trace st ++ [StoreSelect i (meta_id meta); GmailGet i (meta_id meta)] |})
| path_halt m body :
    fetched R srv i meta m body →
    body ≠ "" →
    word_count (usage_tracker st) + count_words R body > word_limit (usage_tracker st) →
    path R srv i meta st
      (Break,
       {| usage_tracker := usage_tracker st;
          stats := stats st;
          trace := trace st ++ [StoreSelect i (meta_id meta); GmailGet i (meta_id meta)] |})
| path_zero_limit m body :
    fetched R srv i meta m body →
    body ≠ "" →
    word_count (usage_tracker st) + count_words R body <= word_limit (usage_tracker st) →
    word_limit (usage_tracker st) = 0 →
    path R srv i meta st
      (Continue,
       {| usage_tracker := (add_usage R (usage_tracker st) body).2;
          stats := incr_errors (stats st);
          trace := trace st ++ [StoreSelect i (meta_id meta); GmailGet i (meta_id meta)] |})
| path_score m body :
    fetched R srv i meta m body →
    body ≠ "" →
    word_count (usage_tracker st) + count_words R body <= word_limit (usage_tracker st) →
    word_limit (usage_tracker st) ≠ 0 →
    path R srv i meta st
      (Continue,
       {| usage_tracker := (add_usage R (usage_tracker st) body).2;
          stats := count_scores (read_scores (gptzero_post srv i body)) (stats st);
          trace := trace st ++
            [StoreSelect i (meta_id meta); GmailGet i (meta_id meta);
             ClassifierPost i body;
             StoreUpsert i (upserted meta m body (read_scores (gptzero_post srv i body)))
               (supabase_upsert srv i
                  (upserted meta m body (read_scores (gptzero_post srv i body))));
             Sleep i 2] |}).

(** The same services with another record store: the answers of the
    select, or the outcomes of the upsert, are replaced. *)
Definition with_select (srv : services)
  (select : nat → string → select_response) : services :=
  {| services_init := services_init srv;
     gmail_list := gmail_list srv;
     supabase_select := select;
     gmail_get := gmail_get srv;
     gptzero_post := gptzero_post srv;
     supabase_upsert := supabase_upsert srv |}.


(** The tracker respects its limit. *)
Definition within_limit (st : state) : Prop :=
  word_count (usage_tracker st) <= word_limit (usage_tracker st).

(** ** Sample data

    A runtime that answers as CPython does on the data used below (and on
    nothing else), three bodies, and services built from their answers. *)

Module Sample.
Definition decodings : list (string * option string) :=
  [ ("aGVsbG8gd29ybGQ=", Some "hello world");
    ("b25lIHR3byB0aHJlZSBmb3VyIGZpdmUgc2l4IHNldmVuIGVpZ2h0IG5pbmUgdGVu",
     Some "one two three four five six seven eight nine ten");
    ("b25lIHR3byB0aHJlZSBmb3VyIGZpdmUgc2l4IHNldmVuIGVpZ2h0IG5pbmUgdGVuIGVsZXZlbg==",
     Some "one two three four five six seven eight nine ten eleven");
    ("6Q==", None) ].           (* the byte E9 alone is not UTF-8 *)

Fixpoint lookup_decoding (table : list (string * option string)) (d : string)
  : option string :=
  match table with
  | [] => None
  | (k, v) :: rest => if String.eqb k d then v else lookup_decoding rest d
  end.

Definition cpython : runtime :=
  {| unicode_word := λ _, false;
     b64decode_utf8 := lookup_decoding decodings |}.

Definition plain_part (d : string) : message_part :=
  {| part_mimeType := "text/plain"; part_body_of := {| body_data := Some d |} |}.
Definition html_part (d : string) : message_part :=
  {| part_mimeType := "text/html"; part_body_of := {| body_data := Some d |} |}.

Definition multipart (parts : list message_part) : message :=
  {| payload_headers := [("To", "me@example.org"); ("From", "ann@example.org")];
     payload_parts := Some parts;
     payload_body := Some {| body_data := None |} |}.

Definition hello : message := multipart [plain_part "aGVsbG8gd29ybGQ="].
Definition ten_words : message :=
  multipart [plain_part "b25lIHR3byB0aHJlZSBmb3VyIGZpdmUgc2l4IHNldmVuIGVpZ2h0IG5pbmUgdGVu"].
Definition eleven_words : message :=
  multipart [plain_part "b25lIHR3byB0aHJlZSBmb3VyIGZpdmUgc2l4IHNldmVuIGVpZ2h0IG5pbmUgdGVuIGVsZXZlbg=="].
Definition html_only : message := multipart [html_part "PGI-aGk8L2I-"].
Definition latin1 : message := multipart [plain_part "6Q=="].

Definition scored_row : row :=
  {| row_gpt_zero_ai := Some (4 # 5)%Q; row_gpt_zero_human := Some (1 # 5)%Q |}.

Definition answer (scores : gmap string (option Q)) : post_response :=
  PostResponse 200
    (Some {| documents := Some [ {| class_probabilities := Some scores |} ] |}).

(** Services that answer every call the same way. *)
Definition constant (select : select_response) (m : message)
  (post : post_response) (upsert : bool) (listing : list message_meta)
  : services :=
  {| services_init := true;
     gmail_list := Some listing;
     supabase_select := λ _ _, select;
     gmail_get := λ _ _, GetMessage m;
     gptzero_post := λ _ _, post;
     supabase_upsert := λ _ _, upsert |}.

Definition m1 : message_meta := {| meta_id := "m1" |}.
Definition m2 : message_meta := {| meta_id := "m2" |}.

(** A mailbox where [m1] is the body of eleven words and every other
    message the body of ten; the store knows neither. *)
Definition boundary (post : post_response) : services :=
  {| services_init := true;
     gmail_list := Some [m1; m2];
     supabase_select := λ _ _, SelectData [];
     gmail_get := λ _ mid,
       GetMessage (if String.eqb mid "m1" then eleven_words else ten_words);
     gptzero_post := λ _ _, post;
     supabase_upsert := λ _ _, true |}.

Definition ten_text : string :=
  "one two three four five six seven eight nine ten".
Definition eleven_text : string :=
  "one two three four five six seven eight nine ten eleven".

Definition probabilities : gmap string (option Q) :=
  {[ "ai" := Some (4 # 5)%Q; "human" := Some (1 # 5)%Q ]}.
Definition human_only : gmap string (option Q) :=
  {[ "human" := Some (1 # 5)%Q ]}.
(** The dictionary of the JSON [{"ai": null}]. *)
Definition ai_null : gmap string (option Q) := {[ "ai" := None ]}.

(** One message the store does not know, with the body [hello world]. *)
Definition new_message (post : post_response) (upsert : bool) : services :=
  constant (SelectData []) hello post upsert [m1].
Definition rate_limited : services := new_message (PostResponse 429 None) true.
Definition ai_missing : services := new_message (answer human_only) true.
Definition null_score : services := new_message (answer ai_null) true.
Definition at_boundary : services := boundary (answer probabilities).

(** The lookup raises; the store knows both messages with their scores. *)
Definition lookup_fails : services :=
  constant SelectRaises hello (answer probabilities) true [m1].
Definition known : services :=
  constant (SelectData [scored_row]) hello (answer probabilities) true [m1; m2].

(** The tracker of [main] before the loop. *)
Definition fresh : state := initial_state (UsageTracker_init 300000).

(** A tracker with 90 words used of 100. *)
Definition ninety : state :=
  {| usage_tracker := {| word_count := 90; word_limit := 100; emails_processed := 3 |};
     stats := Stats_init; trace := [] |}.
End Sample.

(** ** The environment and the search query *)

(** The variables the script checks when it is loaded. *)
Definition required_vars : list string :=
  ["OAUTH_CLIENT_ID"; "OAUTH_CLIENT_SECRET"; "SUPABASE_URL"; "SUPABASE_KEY";
   "ALLOWED_DOMAINS"].

(** [not os.getenv(var)]: the variable is unset or empty. *)
Definition env_unset (env : gmap string string) (var : string) : bool :=
  match env !! var with
  | Some value => String.eqb value ""
  | None => true
  end.

(** [[var for var in required_vars if not os.getenv(var)]] *)
Definition missing_vars (env : gmap string string) : list string :=
  List.filter (env_unset env) required_vars.

(** [sep.join(l)] *)
Fixpoint join (sep : string) (l : list string) : string :=
  match l with
  | [] => ""
  | x :: rest =>
      match rest with
      | [] => x
      | _ :: _ => x +:+ sep +:+ join sep rest
      end
  end.

(** The check at load time: the message of the [ValueError], or nothing. *)
Definition load_environment (env : gmap string string) : string + unit :=
  match missing_vars env with
  | [] => inr tt
  | _ :: _ =>
      inl ("Missing required environment variables: "
           +:+ join ", " (missing_vars env))
  end.

(** [s.split(',')]: the pieces between the commas, empty ones included. *)
Fixpoint split_comma (s : string) : list string :=
  match s with
  | EmptyString => [""]
  | String c rest =>
      if Ascii.eqb c "," then "" :: split_comma rest
      else
        match split_comma rest with
        | piece :: pieces => String c piece :: pieces
        | [] => [String c ""]
        end
  end.

(** [ALLOWED_DOMAINS = os.getenv('ALLOWED_DOMAINS', '').split(',')], which
    the script reaches only when the check above has passed: the list, or
    the message of the [ValueError] raised before it. *)
Definition ALLOWED_DOMAINS (env : gmap string string) : string + list string :=
  match load_environment env with
  | inl message => inl message
  | inr _ => inr (split_comma (default "" (env !! "ALLOWED_DOMAINS")))
  end.

(** [' OR '.join(f'from:{domain}' for domain in ALLOWED_DOMAINS)] *)
Definition search_query (domains : list string) : string :=
  join " OR " (map (λ domain, "from:" +:+ domain) domains).

(** ** Measures of a text, of the counters and of a trace *)

Fixpoint has_word_char (R : runtime) (text : string) : bool :=
  match text with
  | EmptyString => false
  | String c rest => is_word_char R c || has_word_char R rest
  end.

Fixpoint all_word_chars (R : runtime) (text : string) : bool :=
  match text with
  | EmptyString => true
  | String c rest => is_word_char R c && all_word_chars R rest
  end.

Fixpoint count_char (c : ascii) (s : string) : nat :=
  match s with
  | EmptyString => 0
  | String c' rest => (if Ascii.eqb c' c then 1 else 0) + count_char c rest
  end.

(** The messages that were counted in one of the four counters. *)
Definition counted (s : Stats) : Z :=
  processed s + skipped_existing s + skipped_rate_limit s + errors s.

Definition is_select (e : event) : bool :=
  match e with StoreSelect _ _ => true | _ => false end.
Definition is_post (e : event) : bool :=
  match e with ClassifierPost _ _ => true | _ => false end.
Definition is_upsert (e : event) : bool :=
  match e with StoreUpsert _ _ _ => true | _ => false end.
Definition is_sleep (e : event) : bool :=
  match e with Sleep _ _ => true | _ => false end.
Definition is_post_at (i : nat) (e : event) : bool :=
  match e with ClassifierPost j _ => Nat.eqb i j | _ => false end.

Definition count_events (p : event → bool) (tr : list event) : Z :=
  Z.of_nat (length (List.filter p tr)).

(** The calls one iteration makes for the message [meta]: the lookup
    alone, the lookup and the fetch, or the five calls of a message that
    is sent to the classifier. *)
Inductive iteration_calls (R : runtime) (srv : services) (i : nat)
  (meta : message_meta) : list event → Prop :=
| calls_lookup :
    iteration_calls R srv i meta [StoreSelect i (meta_id meta)]
| calls_fetch :
    skips srv i (meta_id meta) = false →
    iteration_calls R srv i meta
      [StoreSelect i (meta_id meta); GmailGet i (meta_id meta)]
| calls_score m body :
    fetched R srv i meta m body →
    body ≠ "" →
    iteration_calls R srv i meta
      [StoreSelect i (meta_id meta); GmailGet i (meta_id meta);
       ClassifierPost i body;
       StoreUpsert i (upserted meta m body (read_scores (gptzero_post srv i body)))
         (supabase_upsert srv i
            (upserted meta m body (read_scores (gptzero_post srv i body))));
       Sleep i 2].

(** ** More sample data *)

Module Edge.
Definition decodings : list (string * option string) :=
  [ ("ISEh", Some "!!!");
    ("aGVsbG8gd29ybGQ=", Some "hello world") ].

Definition cpython : runtime :=
  {| unicode_word := λ _, false;
     b64decode_utf8 := Sample.lookup_decoding decodings |}.

Definition bangs : message := Sample.multipart [Sample.plain_part "ISEh"].

(** A mailbox where [m1] is the body [!!!] and every other message the
    body [hello world]; the store knows neither. *)
Definition mailbox : services :=
  {| services_init := true;
     gmail_list := Some [Sample.m1; Sample.m2];
     supabase_select := λ _ _, SelectData [];
     gmail_get := λ _ mid,
       GetMessage (if String.eqb mid "m1" then bangs else Sample.hello);
     gptzero_post := λ _ _, Sample.answer Sample.probabilities;
     supabase_upsert := λ _ _, true |}.

(** A tracker whose limit is reached. *)
Definition exhausted : state :=
  {| usage_tracker := {| word_count := 100; word_limit := 100; emails_processed := 7 |};
     stats := Stats_init; trace := [] |}.

(** A tracker whose limit is zero. *)
Definition no_quota : state := initial_state (UsageTracker_init 0).

Definition environment : gmap string string :=
  {[ "OAUTH_CLIENT_ID" := "id"; "OAUTH_CLIENT_SECRET" := "secret";
     "SUPABASE_URL" := "https://db.example.org"; "SUPABASE_KEY" := "key";
     "ALLOWED_DOMAINS" := "example.org,example.com" ]}.
End Edge.

(** * Properties *)

Ltac run_monad :=
  unfold loop_iteration, loop_body, check_email_exists, get_gptzero_scores,
    upsert_email, get_tracker, set_tracker, set_stats, call, raise, add_usage,
    get_stats, mbind, M_bind, mret, M_ret in *; simpl in *.



(** ** The word counter and the tracker *)

Lemma count_words_nonneg R text : 0 <= count_words R text.
Proof. unfold count_words. lia. Qed.

Lemma count_words_empty R : count_words R "" = 0.
Proof. reflexivity. Qed.

Lemma add_usage_word_count R self text :
  word_count (add_usage R self text).2 = word_count self + (add_usage R self text).1.
Proof. reflexivity. Qed.

Lemma add_usage_monotone R self text :
  word_count self <= word_count (add_usage R self text).2.
Proof. simpl. pose proof (count_words_nonneg R text). lia. Qed.

Lemma add_usage_all_sum R texts : ∀ self,
  word_count (add_usage_all R self texts).2
  = word_count self + sum_Z (add_usage_all R self texts).1.
Proof.
  induction texts as [|text rest IH]; intros self; simpl.
  - lia.
  - specialize (IH (add_usage R self text).2). simpl in IH.
    destruct (add_usage_all R _ rest) as [charged final]. simpl in *. lia.
Qed.

Lemma add_usage_all_app R texts1 texts2 self :
  (add_usage_all R self (texts1 ++ texts2)).2
  = (add_usage_all R (add_usage_all R self texts1).2 texts2).2.
Proof.
  revert self. induction texts1 as [|text rest IH]; intros self; simpl.
  - reflexivity.
  - specialize (IH (add_usage R self text).2). simpl in IH.
    destruct (add_usage_all R _ (rest ++ texts2)) as [c1 f1].
    destruct (add_usage_all R _ rest) as [c2 f2]. simpl in *. exact IH.
Qed.

Lemma add_usage_all_monotone R texts : ∀ self,
  word_count self <= word_count (add_usage_all R self texts).2.
Proof.
  intros self. rewrite add_usage_all_sum.
  enough (0 <= sum_Z (add_usage_all R self texts).1) by lia.
  revert self. induction texts as [|text rest IH]; intros self; simpl; [lia|].
  specialize (IH (add_usage R self text).2). simpl in IH.
  destruct (add_usage_all R _ rest) as [charged final]. simpl in *.
  pose proof (count_words_nonneg R text). lia.
Qed.

(** C7. For every sequence of [add_usage] calls on a fresh tracker, the
    word count after the sequence is the sum of the amounts the calls
    returned, and the word count after any number of the calls is at most
    the word count after one call more. *)
Theorem C7_usage_is_sum_of_charges (R : runtime) (limit : Z) (texts : list string) :
  word_count (add_usage_all R (UsageTracker_init limit) texts).2
  = sum_Z (add_usage_all R (UsageTracker_init limit) texts).1
  ∧ ∀ k : nat,
      word_count (add_usage_all R (UsageTracker_init limit) (take k texts)).2
      <= word_count (add_usage_all R (UsageTracker_init limit) (take (S k) texts)).2.
Proof.
  split.
  - rewrite add_usage_all_sum. simpl. lia.
  - intros k.
    destruct (texts !! k) as [text|] eqn:Hk.
    + rewrite (take_S_r _ _ _ Hk), add_usage_all_app.
      apply add_usage_all_monotone.
    + apply lookup_ge_None in Hk.
      rewrite !take_ge by lia. lia.
Qed.

(** ** The paths of one iteration *)

Lemma read_exists_has_scores response e :
  read_exists response = (e, true) → e = true.
Proof.
  destruct response as [|[|email rows]]; simpl; intros H; by simplify_eq.
Qed.

Lemma skips_false_has_scores srv i mid :
  skips srv i mid = false →
  ∃ e, read_exists (supabase_select srv i mid) = (e, false).
Proof.
  unfold skips. destruct (read_exists _) as [e [|]] eqn:Hr; [|by eauto].
  apply read_exists_has_scores in Hr as ->. done.
Qed.

(** A message that exists with both scores: counted, nothing else. *)
Lemma loop_iteration_skip R srv i meta st :
  skips srv i (meta_id meta) = true →
  loop_iteration R srv i meta st
  = (Continue,
     {| usage_tracker := usage_tracker st;
        stats := incr_skipped_existing (stats st);
        trace := trace st ++ [StoreSelect i (meta_id meta)] |}).
Proof.
  unfold skips. intros H. run_monad.
  destruct (read_exists _) as [e h]. simpl in *. by rewrite H.
Qed.

(** The fetch raises, or the extraction does: an error. *)
Lemma loop_iteration_fetch_error R srv i meta st :
  skips srv i (meta_id meta) = false →
  (gmail_get srv i (meta_id meta) = GetRaises
   ∨ ∃ m e, gmail_get srv i (meta_id meta) = GetMessage m
            ∧ get_email_body R m = inl e) →
  loop_iteration R srv i meta st
  = (Continue,
     {| usage_tracker := usage_tracker st;
        stats := incr_errors (stats st);
        trace := trace st ++ [StoreSelect i (meta_id meta); GmailGet i (meta_id meta)] |}).
Proof.
  unfold skips. intros H Hget. run_monad.
  destruct (read_exists _) as [e h]. simpl in *. rewrite H.
  destruct Hget as [->|(m & e' & -> & Hbody)]; simpl.
  - by rewrite <- app_assoc.
  - rewrite Hbody. simpl. by rewrite <- app_assoc.
Qed.

(** An empty body: an error, nothing is scored or stored. *)
Lemma loop_iteration_empty R srv i meta m st :
  fetched R srv i meta m "" →
  loop_iteration R srv i meta st
  = (Continue,
     {| usage_tracker := usage_tracker st;
        stats := incr_errors (stats st);
        trace := trace st ++ [StoreSelect i (meta_id meta); GmailGet i (meta_id meta)] |}).
Proof.
  unfold fetched, skips. intros (H & Hget & Hbody). run_monad.
  destruct (read_exists _) as [e h]. simpl in *. rewrite H, Hget. simpl.
  rewrite Hbody. simpl. by rewrite <- app_assoc.
Qed.

(** The projected total is over the limit: the loop is left. *)
Lemma loop_iteration_halt R srv i meta m body st :
  fetched R srv i meta m body →
  body ≠ "" →
  word_count (usage_tracker st) + count_words R body > word_limit (usage_tracker st) →
  loop_iteration R srv i meta st
  = (Break,
     {| usage_tracker := usage_tracker st;
        stats := stats st;
        trace := trace st ++ [StoreSelect i (meta_id meta); GmailGet i (meta_id meta)] |}).
Proof.
  unfold fetched, skips. intros (H & Hget & Hbody) Hne Hover. run_monad.
  destruct (read_exists _) as [e h]. simpl in *. rewrite H, Hget. simpl.
  rewrite Hbody. simpl.
  apply String.eqb_neq in Hne. rewrite Hne. simpl.
  assert ((word_count (usage_tracker st) + count_words R body
           >? word_limit (usage_tracker st)) = true) as ->.
  { rewrite Z.gtb_ltb. apply Z.ltb_lt. lia. }
  by rewrite <- app_assoc.
Qed.

(** The projected total fits: the usage is charged, the classifier is
    asked, the record is upserted with or without scores. *)
Lemma loop_iteration_score R srv i meta m body st :
  fetched R srv i meta m body →
  body ≠ "" →
  word_count (usage_tracker st) + count_words R body <= word_limit (usage_tracker st) →
  word_limit (usage_tracker st) ≠ 0 →
  let scores := read_scores (gptzero_post srv i body) in
  let data := upserted meta m body scores in
  loop_iteration R srv i meta st
  = (Continue,
     {| usage_tracker := (add_usage R (usage_tracker st) body).2;
        stats := count_scores scores (stats st);
        trace := trace st ++
          [StoreSelect i (meta_id meta); GmailGet i (meta_id meta);
           ClassifierPost i body;
           StoreUpsert i data (supabase_upsert srv i data);
           Sleep i 2] |}).
Proof.
  intros (H & Hget & Hbody) Hne Hfits Hlimit.
  destruct (skips_false_has_scores _ _ _ H) as [e He].
  run_monad. rewrite He, Hget. simpl.
  rewrite andb_false_r. simpl. rewrite Hbody. simpl.
  apply String.eqb_neq in Hne. rewrite Hne. simpl.
  assert ((word_count (usage_tracker st) + count_words R body
           >? word_limit (usage_tracker st)) = false) as ->.
  { rewrite Z.gtb_ltb. apply Z.ltb_ge. lia. }
  simpl. apply Z.eqb_neq in Hlimit. rewrite Hlimit. simpl.
  destruct (read_scores _) as [[ai|] [human|]]; simpl;
    by rewrite <- !app_assoc.
Qed.

(** The limit is zero and the projected total fits (a body without a
    word): the usage is charged, the percentage divides by zero, and the
    exception is counted as an error before any request. *)
Lemma loop_iteration_zero_limit R srv i meta m body st :
  fetched R srv i meta m body →
  body ≠ "" →
  word_count (usage_tracker st) + count_words R body <= word_limit (usage_tracker st) →
  word_limit (usage_tracker st) = 0 →
  loop_iteration R srv i meta st
  = (Continue,
     {| usage_tracker := (add_usage R (usage_tracker st) body).2;
        stats := incr_errors (stats st);
        trace := trace st ++ [StoreSelect i (meta_id meta); GmailGet i (meta_id meta)] |}).
Proof.
  intros (H & Hget & Hbody) Hne Hfits Hlimit.
  destruct (skips_false_has_scores _ _ _ H) as [e He].
  run_monad. rewrite He, Hget. simpl.
  rewrite andb_false_r. simpl. rewrite Hbody. simpl.
  apply String.eqb_neq in Hne. rewrite Hne. simpl.
  assert ((word_count (usage_tracker st) + count_words R body
           >? word_limit (usage_tracker st)) = false) as ->.
  { rewrite Z.gtb_ltb. apply Z.ltb_ge. lia. }
  simpl. rewrite Hlimit. simpl. by rewrite <- !app_assoc.
Qed.

Lemma loop_iteration_path R srv i meta st :
  path R srv i meta st (loop_iteration R srv i meta st).
Proof.
  destruct (skips srv i (meta_id meta)) eqn:Hskip.
  { rewrite loop_iteration_skip by done. by constructor. }
  destruct (gmail_get srv i (meta_id meta)) as [|m] eqn:Hget.
  { rewrite loop_iteration_fetch_error by auto. by constructor. }
  destruct (get_email_body R m) as [e|body] eqn:Hbody.
  { rewrite loop_iteration_fetch_error by eauto 6. by constructor. }
  assert (fetched R srv i meta m body) as Hf by done.
  destruct (decide (body = "")) as [->|Hne].
  { rewrite (loop_iteration_empty _ _ _ _ m) by done. by constructor. }
  destruct (Z_gt_le_dec (word_count (usage_tracker st) + count_words R body)
              (word_limit (usage_tracker st))) as [Hover|Hfits].
  { rewrite (loop_iteration_halt _ _ _ _ m body) by done. by econstructor. }
  destruct (decide (word_limit (usage_tracker st) = 0)) as [Hz|Hnz].
  { rewrite (loop_iteration_zero_limit _ _ _ _ m body) by done. by econstructor. }
  rewrite (loop_iteration_score _ _ _ _ m body) by done. by econstructor.
Qed.

(** ** The limit is never exceeded *)

(** One iteration leaves the tracker alone or charges one body whose
    projected total fits. *)
Lemma loop_iteration_tracker R srv i meta st :
  usage_tracker (loop_iteration R srv i meta st).2 = usage_tracker st
  ∨ ∃ body,
      usage_tracker (loop_iteration R srv i meta st).2
      = (add_usage R (usage_tracker st) body).2
      ∧ word_count (usage_tracker st) + count_words R body
        <= word_limit (usage_tracker st).
Proof.
  destruct (loop_iteration_path R srv i meta st); simpl; eauto.
Qed.

Lemma loop_iteration_within_limit R srv i meta st :
  within_limit st →
  within_limit (loop_iteration R srv i meta st).2
  ∧ word_limit (usage_tracker (loop_iteration R srv i meta st).2)
    = word_limit (usage_tracker st).
Proof.
  unfold within_limit. intros Hst.
  destruct (loop_iteration_tracker R srv i meta st) as [->|(body & -> & Hfits)];
    simpl; auto.
Qed.

Lemma for_loop_within_limit R srv messages : ∀ i st,
  within_limit st →
  within_limit (for_loop R srv i messages st)
  ∧ word_limit (usage_tracker (for_loop R srv i messages st))
    = word_limit (usage_tracker st).
Proof.
  induction messages as [|meta rest IH]; intros i st Hst; simpl; [done|].
  destruct (loop_iteration_within_limit R srv i meta st Hst) as [Hin Hlim].
  destruct (loop_iteration R srv i meta st) as [[|] st']; simpl in *.
  - destruct (IH (S i) st' Hin) as [? ?]. split; [done|congruence].
  - done.
Qed.

(** A request to the classifier in an iteration comes with the charge of
    its text, and the total charged fits. *)
Lemma loop_iteration_post_charged R srv i meta st j text :
  ClassifierPost j text ∈ trace (loop_iteration R srv i meta st).2 →
  ClassifierPost j text ∉ trace st →
  word_count (usage_tracker (loop_iteration R srv i meta st).2)
  = word_count (usage_tracker st) + count_words R text
  ∧ word_count (usage_tracker st) + count_words R text
    <= word_limit (usage_tracker st).
Proof.
  intros Hin Hnot.
  destruct (loop_iteration_path R srv i meta st); simpl in *;
    apply elem_of_app in Hin as [Hin|Hin]; try done;
    repeat (apply elem_of_cons in Hin as [Hin|Hin]; try discriminate);
    try by apply elem_of_nil in Hin.
  by simplify_eq.
Qed.

(** C1. In a run that starts with no word used and a limit that is not
    negative, the word count is at most the limit after any number of
    iterations of the loop; and in any iteration, from any state, a request
    to the classifier is made only when the projected total fits, and the
    amount charged for it is the projected word count. *)
Theorem C1_word_count_within_limit (R : runtime) (srv : services) (limit : Z)
  (messages : list message_meta) (k : nat) :
  0 <= limit →
  word_count (usage_tracker
    (for_loop R srv 1 (take k messages) (initial_state (UsageTracker_init limit))))
  <= limit
  ∧ ∀ i meta st text,
      ClassifierPost i text ∈ trace (loop_iteration R srv i meta st).2 →
      ClassifierPost i text ∉ trace st →
      word_count (usage_tracker (loop_iteration R srv i meta st).2)
      = word_count (usage_tracker st) + count_words R text
      ∧ word_count (usage_tracker st) + count_words R text
        <= word_limit (usage_tracker st).
Proof.
  intros Hlimit. split.
  - destruct (for_loop_within_limit R srv (take k messages) 1
                (initial_state (UsageTracker_init limit))) as [Hin Hlim].
    { unfold within_limit. simpl. lia. }
    unfold within_limit in Hin. rewrite Hlim in Hin. exact Hin.
  - intros i meta st text. apply loop_iteration_post_charged.
Qed.

(** ** The quota check *)

(** C3. With a limit of 100 and 90 words used, an item whose body counts
    11 words ends the loop after its lookup and its fetch, before any
    request to the classifier and whatever the messages after it; an item
    whose body counts 10 words is sent to the classifier, the word count
    becomes exactly 100, and the item is counted as processed when the
    classifier answers with scores. *)
Theorem C3_quota_boundary (R : runtime) (srv : services) (i : nat)
  (eleven ten : message_meta) (m11 m10 : message) (body11 body10 : string)
  (rest : list message_meta) (st : state) :
  word_limit (usage_tracker st) = 100 →
  word_count (usage_tracker st) = 90 →
  fetched R srv i eleven m11 body11 →
  count_words R body11 = 11 →
  fetched R srv i ten m10 body10 →
  count_words R body10 = 10 →
  for_loop R srv i (eleven :: rest) st
  = {| usage_tracker := usage_tracker st;
       stats := stats st;
       trace := trace st ++
         [StoreSelect i (meta_id eleven); GmailGet i (meta_id eleven)] |}
  ∧ (loop_iteration R srv i ten st).1 = Continue
  ∧ word_count (usage_tracker (loop_iteration R srv i ten st).2) = 100
  ∧ trace (loop_iteration R srv i ten st).2
    = (trace st ++
        [StoreSelect i (meta_id ten); GmailGet i (meta_id ten);
         ClassifierPost i body10;
         StoreUpsert i (upserted ten m10 body10 (read_scores (gptzero_post srv i body10)))
           (supabase_upsert srv i
              (upserted ten m10 body10 (read_scores (gptzero_post srv i body10))));
         Sleep i 2])%list
  ∧ ∀ ai human,
      read_scores (gptzero_post srv i body10) = (Some ai, Some human) →
      stats (loop_iteration R srv i ten st).2 = incr_processed (stats st).
Proof.
  intros Hlimit Hcount H11 Hw11 H10 Hw10.
  assert (body11 ≠ "") as Hne11.
  { intros ->. by rewrite count_words_empty in Hw11. }
  assert (body10 ≠ "") as Hne10.
  { intros ->. by rewrite count_words_empty in Hw10. }
  split.
  - simpl. rewrite (loop_iteration_halt R srv i eleven m11 body11); [done..|lia].
  - rewrite (loop_iteration_score R srv i ten m10 body10); [|done|done|lia|lia].
    simpl. repeat split; [lia|].
    intros ai human ->. done.
Qed.

(** C5. When the projected total of the current item exceeds the limit,
    the loop ends there: the state is the one before the item plus its
    lookup and its fetch, whatever messages remain; and the final report is
    made from that state, with the counters and the usage as they were,
    instead of a failure. *)
Theorem C5_overshoot_halts_run (R : runtime) (srv : services) (i : nat)
  (meta : message_meta) (m : message) (body : string)
  (rest : list message_meta) (st : state) :
  fetched R srv i meta m body →
  body ≠ "" →
  word_count (usage_tracker st) + count_words R body > word_limit (usage_tracker st) →
  word_limit (usage_tracker st) ≠ 0 →
  for_loop R srv i (meta :: rest) st
  = {| usage_tracker := usage_tracker st;
       stats := stats st;
       trace := trace st ++
         [StoreSelect i (meta_id meta); GmailGet i (meta_id meta)] |}
  ∧ final_report (for_loop R srv i (meta :: rest) st)
    = Completed (stats st)
        {| total_words := word_count (usage_tracker st);
           words_remaining :=
             word_limit (usage_tracker st) - word_count (usage_tracker st);
           stats_emails_processed := emails_processed (usage_tracker st) |}.
Proof.
  intros Hf Hne Hover Hlimit.
  assert (for_loop R srv i (meta :: rest) st
          = {| usage_tracker := usage_tracker st; stats := stats st;
               trace := trace st ++
                 [StoreSelect i (meta_id meta); GmailGet i (meta_id meta)] |})
    as ->.
  { simpl. by rewrite (loop_iteration_halt R srv i meta m body). }
  split; [done|].
  unfold final_report, get_stats. simpl.
  apply Z.eqb_neq in Hlimit. by rewrite Hlimit.
Qed.

(** ** Messages that are already scored *)

Lemma loop_iteration_events R srv i meta st :
  ∃ evs,
    trace (loop_iteration R srv i meta st).2 = (trace st ++ evs)%list
    ∧ Forall (λ e, event_index e = i) evs
    ∧ (skips srv i (meta_id meta) = true → evs = [StoreSelect i (meta_id meta)]).
Proof.
  destruct (loop_iteration_path R srv i meta st) as [H|H|? ? [H _]|? ? [H _]|? ? [H _]];
    simpl; eexists; (split; [reflexivity|]);
    (split; [by repeat constructor|]); intros; congruence.
Qed.

Lemma for_loop_events R srv messages : ∀ i st,
  ∃ evs,
    trace (for_loop R srv i messages st) = (trace st ++ evs)%list
    ∧ Forall (λ e, ∃ k meta,
          messages !! k = Some meta
          ∧ event_index e = (i + k)%nat
          ∧ (skips srv (i + k) (meta_id meta) = true →
             e = StoreSelect (i + k) (meta_id meta))) evs.
Proof.
  induction messages as [|meta rest IH]; intros i st; simpl.
  { exists []. by rewrite app_nil_r. }
  destruct (loop_iteration_events R srv i meta st) as (evs1 & Htr & Hidx & Hskip).
  assert (Forall (λ e, ∃ k meta0,
            (meta :: rest) !! k = Some meta0
            ∧ event_index e = (i + k)%nat
            ∧ (skips srv (i + k) (meta_id meta0) = true →
               e = StoreSelect (i + k) (meta_id meta0))) evs1) as H1.
  { apply Forall_forall. intros e He. exists 0%nat, meta.
    rewrite Nat.add_0_r. split; [done|].
    split; [by eapply Forall_forall in Hidx|].
    intros Hs. rewrite (Hskip Hs) in He. by apply list_elem_of_singleton in He. }
  destruct (loop_iteration R srv i meta st) as [[|] st']; simpl in *.
  - destruct (IH (S i) st') as (evs2 & Htr2 & H2).
    exists (evs1 ++ evs2). split.
    { by rewrite Htr2, Htr, app_assoc. }
    apply Forall_app. split; [done|].
    eapply Forall_impl; [exact H2|].
    intros e (k & meta0 & Hk & He & Hs). exists (S k), meta0.
    by rewrite Nat.add_succ_r.
  - by exists evs1.
Qed.

(** C4. When the store reports the message at position [k] of the
    candidates as existing with both scores, the only call of the run made
    for that message is the lookup itself (no fetch, no request to the
    classifier, no upsert); its iteration counts it as skipped and leaves
    the tracker as it was. *)
Theorem C4_scored_identity_not_resubmitted (R : runtime) (srv : services)
  (ut : UsageTracker) (messages : list message_meta) (k : nat)
  (meta : message_meta) :
  messages !! k = Some meta →
  skips srv (S k) (meta_id meta) = true →
  (∀ e, e ∈ trace (process_messages R srv ut messages).2 →
        event_index e = S k →
        e = StoreSelect (S k) (meta_id meta))
  ∧ ∀ st, loop_iteration R srv (S k) meta st
          = (Continue,
             {| usage_tracker := usage_tracker st;
                stats := incr_skipped_existing (stats st);
                trace := trace st ++ [StoreSelect (S k) (meta_id meta)] |}).
Proof.
  intros Hk Hskip. split.
  - intros e He Hidx. unfold process_messages in He. simpl in He.
    destruct (for_loop_events R srv messages 1 (initial_state ut))
      as (evs & Htr & Hall).
    rewrite Htr in He. simpl in He.
    eapply Forall_forall in Hall as (k' & meta' & Hk' & Hidx' & Hs); [|exact He].
    assert (k' = k) as -> by lia.
    assert (meta' = meta) as -> by congruence.
    by apply Hs.
  - intros st. by apply loop_iteration_skip.
Qed.

(** ** What the classifier answers *)

Lemma read_scores_not_200 status_code json :
  status_code ≠ 200 → read_scores (PostResponse status_code json) = (None, None).
Proof.
  intros H. simpl. apply Z.eqb_neq in H. rewrite H. by destruct (_ =? 429).
Qed.

Lemma read_scores_200 result doc docs scores :
  documents result = Some (doc :: docs) →
  class_probabilities doc = Some scores →
  read_scores (PostResponse 200 (Some result))
  = (default (Some 0%Q) (scores !! "ai"), default (Some 0%Q) (scores !! "human")).
Proof. intros Hd Hs. simpl. by rewrite Hd, Hs. Qed.

(** C2, as the code has it. For an item whose request to the classifier
    ends in a rate limit, an error status or an exception, the record is
    upserted without scores, [skipped_rate_limit] grows by one, and the
    word count grows by the word count of the body, since the usage is
    charged before the request is made; a status other than 200 and a
    raised exception are such ends. *)
Theorem C2_classifier_failure (R : runtime) (srv : services) (i : nat)
  (meta : message_meta) (m : message) (body : string) (st : state) :
  fetched R srv i meta m body →
  body ≠ "" →
  word_count (usage_tracker st) + count_words R body <= word_limit (usage_tracker st) →
  word_limit (usage_tracker st) ≠ 0 →
  read_scores (gptzero_post srv i body) = (None, None) →
  loop_iteration R srv i meta st
  = (Continue,
     {| usage_tracker :=
          {| word_count := word_count (usage_tracker st) + count_words R body;
             word_limit := word_limit (usage_tracker st);
             emails_processed := emails_processed (usage_tracker st) + 1 |};
        stats := incr_skipped_rate_limit (stats st);
        trace := trace st ++
          [StoreSelect i (meta_id meta); GmailGet i (meta_id meta);
           ClassifierPost i body;
           StoreUpsert i
             {| message_id := meta_id meta;
                sender := header_from (payload_headers m); body := body;
                gpt_zero_ai := None; gpt_zero_human := None |}
             (supabase_upsert srv i
                {| message_id := meta_id meta;
                   sender := header_from (payload_headers m); body := body;
                   gpt_zero_ai := None; gpt_zero_human := None |});
           Sleep i 2] |})
  ∧ (∀ status_code json,
       status_code ≠ 200 →
       read_scores (PostResponse status_code json) = (None, None))
  ∧ read_scores PostRaises = (None, None).
Proof.
  intros Hf Hne Hfits Hlimit Hfail.
  split; [|split; [apply read_scores_not_200|done]].
  rewrite (loop_iteration_score R srv i meta m body) by done.
  by rewrite Hfail.
Qed.

(** C10, as the code has it. A 200 answer whose first document has class
    probabilities gives, for each of [ai] and [human], the value stored
    under the key, 0 standing for a key that is missing.  When both values
    are numbers, the item is counted as processed and the record is
    upserted with both score fields; when a key holds [null], its value is
    [None], and the item is counted as skipped for the rate limit and
    upserted without scores, as after an error of the classifier. *)
Theorem C10_missing_probability_is_zero (R : runtime) (srv : services) (i : nat)
  (meta : message_meta) (m : message) (body : string) (st : state)
  (result : api_result) (doc : document) (docs : list document)
  (scores : gmap string (option Q)) :
  fetched R srv i meta m body →
  body ≠ "" →
  word_count (usage_tracker st) + count_words R body <= word_limit (usage_tracker st) →
  word_limit (usage_tracker st) ≠ 0 →
  gptzero_post srv i body = PostResponse 200 (Some result) →
  documents result = Some (doc :: docs) →
  class_probabilities doc = Some scores →
  read_scores (gptzero_post srv i body)
  = (default (Some 0%Q) (scores !! "ai"), default (Some 0%Q) (scores !! "human"))
  ∧ (scores !! "ai" = None → (read_scores (gptzero_post srv i body)).1 = Some 0%Q)
  ∧ (scores !! "human" = None → (read_scores (gptzero_post srv i body)).2 = Some 0%Q)
  ∧ (∀ ai human,
       default (Some 0%Q) (scores !! "ai") = Some ai →
       default (Some 0%Q) (scores !! "human") = Some human →
       stats (loop_iteration R srv i meta st).2 = incr_processed (stats st)
       ∧ trace (loop_iteration R srv i meta st).2
         = trace st ++
             [StoreSelect i (meta_id meta); GmailGet i (meta_id meta);
              ClassifierPost i body;
              StoreUpsert i
                {| message_id := meta_id meta;
                   sender := header_from (payload_headers m); body := body;
                   gpt_zero_ai := Some ai; gpt_zero_human := Some human |}
                (supabase_upsert srv i
                   {| message_id := meta_id meta;
                      sender := header_from (payload_headers m); body := body;
                      gpt_zero_ai := Some ai; gpt_zero_human := Some human |});
              Sleep i 2])
  ∧ (scores !! "ai" = Some None ∨ scores !! "human" = Some None →
     stats (loop_iteration R srv i meta st).2 = incr_skipped_rate_limit (stats st)
     ∧ trace (loop_iteration R srv i meta st).2
       = trace st ++
           [StoreSelect i (meta_id meta); GmailGet i (meta_id meta);
            ClassifierPost i body;
            StoreUpsert i
              {| message_id := meta_id meta;
                 sender := header_from (payload_headers m); body := body;
                 gpt_zero_ai := None; gpt_zero_human := None |}
              (supabase_upsert srv i
                 {| message_id := meta_id meta;
                    sender := header_from (payload_headers m); body := body;
                    gpt_zero_ai := None; gpt_zero_human := None |});
            Sleep i 2]).
Proof.
  intros Hf Hne Hfits Hlimit Hpost Hdocs Hscores.
  assert (read_scores (gptzero_post srv i body)
          = (default (Some 0%Q) (scores !! "ai"),
             default (Some 0%Q) (scores !! "human"))) as Hread.
  { rewrite Hpost. by eapply read_scores_200. }
  rewrite (loop_iteration_score R srv i meta m body) by done.
  rewrite Hread. simpl.
  split; [done|]. split; [by intros ->|]. split; [by intros ->|]. split.
  - intros ai human -> ->. done.
  - intros [Hnull|Hnull]; rewrite Hnull; simpl.
    + done.
    + by destruct (default (Some 0%Q) (scores !! "ai")).
Qed.

(** ** Failures of the record store *)

(** A lookup that raises is read as a message the store does not know. *)
Lemma loop_iteration_select_raises R srv i meta st :
  supabase_select srv i (meta_id meta) = SelectRaises →
  loop_iteration R srv i meta st
  = loop_iteration R (with_select srv (λ _ _, SelectData [])) i meta st.
Proof.
  intros H. destruct srv. unfold with_select. run_monad. by rewrite H.
Qed.

Lemma skips_select_raises srv i mid :
  supabase_select srv i mid = SelectRaises → skips srv i mid = false.
Proof. unfold skips. by intros ->. Qed.


(** C9. When the lookup of a message raises, [check_email_exists] answers
    [(False, False)] and the iteration is the one of a message the store
    does not know, whatever the store holds for it: with a body that is
    not empty and fits the limit, the message is fetched, charged, sent to
    the classifier and upserted, and the only counter that moves is the
    one of the classifier's answer, so that the failed lookup is counted
    nowhere. *)
Theorem C9_lookup_failure_is_new (R : runtime) (srv : services) (i : nat)
  (meta : message_meta) (st : state) :
  supabase_select srv i (meta_id meta) = SelectRaises →
  (check_email_exists srv i (meta_id meta) st).1 = inr (false, false)
  ∧ loop_iteration R srv i meta st
    = loop_iteration R (with_select srv (λ _ _, SelectData [])) i meta st
  ∧ ∀ m body,
      gmail_get srv i (meta_id meta) = GetMessage m →
      get_email_body R m = inr body →
      body ≠ "" →
      word_count (usage_tracker st) + count_words R body
        <= word_limit (usage_tracker st) →
      word_limit (usage_tracker st) ≠ 0 →
      loop_iteration R srv i meta st
      = (Continue,
         {| usage_tracker := (add_usage R (usage_tracker st) body).2;
            stats := count_scores (read_scores (gptzero_post srv i body)) (stats st);
            trace := trace st ++
              [StoreSelect i (meta_id meta); GmailGet i (meta_id meta);
               ClassifierPost i body;
               StoreUpsert i
                 (upserted meta m body (read_scores (gptzero_post srv i body)))
                 (supabase_upsert srv i
                    (upserted meta m body (read_scores (gptzero_post srv i body))));
               Sleep i 2] |})
      ∧ errors (stats (loop_iteration R srv i meta st).2) = errors (stats st).
Proof.
  intros Hraise. split; [|split].
  - unfold check_email_exists, call, mbind, M_bind, mret, M_ret. simpl.
    by rewrite Hraise.
  - by apply loop_iteration_select_raises.
  - intros m body Hget Hbody Hne Hfits Hlimit.
    assert (fetched R srv i meta m body) as Hf.
    { split; [by apply skips_select_raises|done]. }
    rewrite (loop_iteration_score R srv i meta m body) by done.
    split; [done|]. simpl.
    by destruct (read_scores _) as [[?|] [?|]].
Qed.


(** ** Body extraction *)

Lemma for_parts_first R before part after d :
  part_mimeType part = "text/plain" →
  body_data (part_body_of part) = Some d →
  (∀ p, p ∈ before →
        part_mimeType p ≠ "text/plain" ∨ body_data (part_body_of p) = None) →
  for_parts R (before ++ part :: after) = Some (decode R d).
Proof.
  intros Hmime Hdata. induction before as [|p before IH]; intros Hbefore; simpl.
  - rewrite Hdata, Hmime. done.
  - destruct (Hbefore p) as [Hp|Hp]; [by left| |].
    + apply String.eqb_neq in Hp. rewrite Hp.
      destruct (body_data (part_body_of p));
        apply IH; intros q Hq; apply Hbefore; by right.
    + rewrite Hp. apply IH. intros q Hq. apply Hbefore. by right.
Qed.

Lemma for_parts_none R parts :
  (∀ p, p ∈ parts →
        part_mimeType p ≠ "text/plain" ∨ body_data (part_body_of p) = None) →
  for_parts R parts = None.
Proof.
  induction parts as [|p parts IH]; intros Hparts; simpl; [done|].
  rewrite IH by (intros q Hq; apply Hparts; by right).
  destruct (Hparts p) as [Hp|Hp]; [by left| |].
  - apply String.eqb_neq in Hp. rewrite Hp. by destruct (body_data _).
  - by rewrite Hp.
Qed.

Lemma for_parts_result R parts r :
  for_parts R parts = Some r → ∃ d, r = decode R d.
Proof.
  induction parts as [|p parts IH]; simpl; [done|].
  destruct (body_data _) as [d|]; [|done].
  destruct (String.eqb _ _); [|done].
  intros [= <-]. eauto.
Qed.

Lemma get_email_body_result R m :
  get_email_body R m = inr "" ∨ ∃ d, get_email_body R m = decode R d.
Proof.
  unfold get_email_body.
  destruct (payload_parts m) as [parts|].
  - destruct (for_parts R parts) as [r|] eqn:Hr; [|by left].
    apply for_parts_result in Hr as [d ->]. eauto.
  - destruct (payload_body m) as [[[d|]]|]; eauto.
Qed.

(** C8, as the code has it. When the payload has parts, the body is the
    decoded data of the first part that is [text/plain] and carries data,
    and the empty string when no part is such (the payload's own body is
    not tried then); when it has no parts, the body is the decoded data of
    the payload's body, and the empty string when that body or its data is
    missing.  The result is a string unless decoding the chosen data
    raises, and then the extraction raises too; it is always a string when
    the decoder accepts every data. *)
Theorem C8_body_extraction (R : runtime) (m : message) :
  (∀ before part after d,
     payload_parts m = Some (before ++ part :: after) →
     part_mimeType part = "text/plain" →
     body_data (part_body_of part) = Some d →
     (∀ p, p ∈ before →
           part_mimeType p ≠ "text/plain" ∨ body_data (part_body_of p) = None) →
     get_email_body R m = decode R d)
  ∧ (∀ parts,
       payload_parts m = Some parts →
       (∀ p, p ∈ parts →
             part_mimeType p ≠ "text/plain" ∨ body_data (part_body_of p) = None) →
       get_email_body R m = inr "")
  ∧ (∀ b d,
       payload_parts m = None →
       payload_body m = Some b →
       body_data b = Some d →
       get_email_body R m = decode R d)
  ∧ (payload_parts m = None →
     (payload_body m = None
      ∨ ∃ b, payload_body m = Some b ∧ body_data b = None) →
     get_email_body R m = inr "")
  ∧ ((∃ text, get_email_body R m = inr text)
     ∨ (get_email_body R m = inl DecodeError
        ∧ ∃ d, b64decode_utf8 R d = None))
  ∧ ((∀ d, b64decode_utf8 R d ≠ None) →
     ∃ text, get_email_body R m = inr text).
Proof.
  split_and!.
  - intros before part after d Hparts Hmime Hdata Hbefore.
    unfold get_email_body. rewrite Hparts.
    by rewrite (for_parts_first R before part after d).
  - intros parts Hparts Hnone. unfold get_email_body. rewrite Hparts.
    by rewrite for_parts_none.
  - intros b d Hparts Hbody Hdata. unfold get_email_body.
    by rewrite Hparts, Hbody, Hdata.
  - intros Hparts Hbody. unfold get_email_body. rewrite Hparts.
    by destruct Hbody as [->|(b & -> & ->)].
  - destruct (get_email_body_result R m) as [->|[d ->]]; [by eauto|].
    unfold decode. destruct (b64decode_utf8 R d) eqn:Hd; eauto.
  - intros Htotal.
    destruct (get_email_body_result R m) as [->|[d ->]]; [by eauto|].
    unfold decode. destruct (b64decode_utf8 R d) eqn:Hd; [by eauto|].
    by destruct (Htotal d).
Qed.

(** * The properties at sample runs *)

Lemma C1_witness :
  0 <= 15
  ∧ (word_count (usage_tracker
       (for_loop Sample.cpython Sample.at_boundary
          1 (take 2 [Sample.m1; Sample.m2])
          (initial_state (UsageTracker_init 15))))
     <= 15
     ∧ ∀ i meta st text,
         ClassifierPost i text
           ∈ trace (loop_iteration Sample.cpython
                      Sample.at_boundary
                      i meta st).2 →
         ClassifierPost i text ∉ trace st →
         word_count (usage_tracker
           (loop_iteration Sample.cpython
              Sample.at_boundary i meta st).2)
         = word_count (usage_tracker st) + count_words Sample.cpython text
         ∧ word_count (usage_tracker st) + count_words Sample.cpython text
           <= word_limit (usage_tracker st)).
Proof.
  split; [lia|].
  apply (C1_word_count_within_limit Sample.cpython
           Sample.at_boundary 15
           [Sample.m1; Sample.m2] 2).
  lia.
Defined.

Lemma C3_witness :
  word_limit (usage_tracker Sample.ninety) = 100
  ∧ word_count (usage_tracker Sample.ninety) = 90
  ∧ fetched Sample.cpython Sample.at_boundary 1 Sample.m1
      Sample.eleven_words Sample.eleven_text
  ∧ count_words Sample.cpython Sample.eleven_text = 11
  ∧ fetched Sample.cpython Sample.at_boundary 1 Sample.m2
      Sample.ten_words Sample.ten_text
  ∧ count_words Sample.cpython Sample.ten_text = 10
  ∧ for_loop Sample.cpython Sample.at_boundary 1 [Sample.m1; Sample.m2] Sample.ninety
    = {| usage_tracker := usage_tracker Sample.ninety;
         stats := stats Sample.ninety;
         trace := trace Sample.ninety ++ [StoreSelect 1 "m1"; GmailGet 1 "m1"] |}
  ∧ (loop_iteration Sample.cpython Sample.at_boundary 1 Sample.m2 Sample.ninety).1
    = Continue
  ∧ word_count (usage_tracker
      (loop_iteration Sample.cpython Sample.at_boundary 1 Sample.m2 Sample.ninety).2)
    = 100
  ∧ trace (loop_iteration Sample.cpython Sample.at_boundary 1 Sample.m2 Sample.ninety).2
    = [StoreSelect 1 "m2"; GmailGet 1 "m2";
       ClassifierPost 1 Sample.ten_text;
       StoreUpsert 1
         {| message_id := "m2"; sender := "ann@example.org";
            body := Sample.ten_text;
            gpt_zero_ai := Some (4 # 5)%Q; gpt_zero_human := Some (1 # 5)%Q |}
         true;
       Sleep 1 2]
  ∧ ∀ ai human,
      read_scores (gptzero_post Sample.at_boundary 1 Sample.ten_text)
      = (Some ai, Some human) →
      stats (loop_iteration Sample.cpython Sample.at_boundary 1 Sample.m2 Sample.ninety).2
      = incr_processed (stats Sample.ninety).
Proof.
  assert (fetched Sample.cpython Sample.at_boundary 1 Sample.m1
            Sample.eleven_words Sample.eleven_text) as H11
    by (repeat split; reflexivity).
  assert (fetched Sample.cpython Sample.at_boundary 1 Sample.m2
            Sample.ten_words Sample.ten_text) as H10
    by (repeat split; reflexivity).
  split; [reflexivity|]. split; [reflexivity|].
  split; [exact H11|]. split; [reflexivity|].
  split; [exact H10|]. split; [reflexivity|].
  exact (C3_quota_boundary Sample.cpython Sample.at_boundary 1 Sample.m1 Sample.m2
           Sample.eleven_words Sample.ten_words Sample.eleven_text Sample.ten_text
           [Sample.m2] Sample.ninety
           eq_refl eq_refl H11 eq_refl H10 eq_refl).
Defined.

Lemma C5_witness :
  fetched Sample.cpython Sample.at_boundary 1 Sample.m1
    Sample.eleven_words Sample.eleven_text
  ∧ Sample.eleven_text ≠ ""
  ∧ word_count (usage_tracker Sample.ninety)
      + count_words Sample.cpython Sample.eleven_text
    > word_limit (usage_tracker Sample.ninety)
  ∧ word_limit (usage_tracker Sample.ninety) ≠ 0
  ∧ for_loop Sample.cpython Sample.at_boundary 1 [Sample.m1; Sample.m2] Sample.ninety
    = {| usage_tracker := usage_tracker Sample.ninety;
         stats := stats Sample.ninety;
         trace := trace Sample.ninety ++ [StoreSelect 1 "m1"; GmailGet 1 "m1"] |}
  ∧ final_report
      (for_loop Sample.cpython Sample.at_boundary 1 [Sample.m1; Sample.m2] Sample.ninety)
    = Completed Stats_init
        {| total_words := 90; words_remaining := 10; stats_emails_processed := 3 |}.
Proof.
  assert (fetched Sample.cpython Sample.at_boundary 1 Sample.m1
            Sample.eleven_words Sample.eleven_text) as H11
    by (repeat split; reflexivity).
  assert (Sample.eleven_text ≠ "") as Hne by discriminate.
  assert (word_count (usage_tracker Sample.ninety)
            + count_words Sample.cpython Sample.eleven_text
          > word_limit (usage_tracker Sample.ninety)) as Hover by reflexivity.
  assert (word_limit (usage_tracker Sample.ninety) ≠ 0) as Hlimit by discriminate.
  split; [exact H11|]. split; [exact Hne|]. split; [exact Hover|].
  split; [exact Hlimit|].
  exact (C5_overshoot_halts_run Sample.cpython Sample.at_boundary 1 Sample.m1
           Sample.eleven_words Sample.eleven_text [Sample.m2] Sample.ninety
           H11 Hne Hover Hlimit).
Defined.

Lemma C4_witness :
  [Sample.m1; Sample.m2] !! 1%nat = Some Sample.m2
  ∧ skips Sample.known 2 (meta_id Sample.m2) = true
  ∧ (∀ e,
       e ∈ trace (process_messages Sample.cpython Sample.known
                    (UsageTracker_init 300000) [Sample.m1; Sample.m2]).2 →
       event_index e = 2%nat →
       e = StoreSelect 2 (meta_id Sample.m2))
  ∧ ∀ st,
      loop_iteration Sample.cpython Sample.known 2 Sample.m2 st
      = (Continue,
         {| usage_tracker := usage_tracker st;
            stats := incr_skipped_existing (stats st);
            trace := trace st ++ [StoreSelect 2 (meta_id Sample.m2)] |}).
Proof.
  split; [reflexivity|]. split; [reflexivity|].
  exact (C4_scored_identity_not_resubmitted Sample.cpython Sample.known
           (UsageTracker_init 300000) [Sample.m1; Sample.m2] 1 Sample.m2
           eq_refl eq_refl).
Defined.

Lemma C2_witness :
  fetched Sample.cpython Sample.rate_limited 1 Sample.m1 Sample.hello "hello world"
  ∧ "hello world" ≠ ""
  ∧ word_count (usage_tracker Sample.fresh) + count_words Sample.cpython "hello world"
    <= word_limit (usage_tracker Sample.fresh)
  ∧ word_limit (usage_tracker Sample.fresh) ≠ 0
  ∧ read_scores (gptzero_post Sample.rate_limited 1 "hello world") = (None, None)
  ∧ loop_iteration Sample.cpython Sample.rate_limited 1 Sample.m1 Sample.fresh
    = (Continue,
       {| usage_tracker :=
            {| word_count := 2; word_limit := 300000; emails_processed := 1 |};
          stats := {| processed := 0; skipped_existing := 0;
                      skipped_rate_limit := 1; errors := 0 |};
          trace :=
            [StoreSelect 1 "m1"; GmailGet 1 "m1"; ClassifierPost 1 "hello world";
             StoreUpsert 1
               {| message_id := "m1"; sender := "ann@example.org";
                  body := "hello world";
                  gpt_zero_ai := None; gpt_zero_human := None |}
               true;
             Sleep 1 2] |})
  ∧ (∀ status_code json,
       status_code ≠ 200 →
       read_scores (PostResponse status_code json) = (None, None))
  ∧ read_scores PostRaises = (None, None).
Proof.
  assert (fetched Sample.cpython Sample.rate_limited 1 Sample.m1 Sample.hello
            "hello world") as Hf by (repeat split; reflexivity).
  assert ("hello world" ≠ "") as Hne by discriminate.
  assert (word_count (usage_tracker Sample.fresh)
            + count_words Sample.cpython "hello world"
          <= word_limit (usage_tracker Sample.fresh)) as Hfits by discriminate.
  assert (word_limit (usage_tracker Sample.fresh) ≠ 0) as Hlimit by discriminate.
  split; [exact Hf|]. split; [exact Hne|]. split; [exact Hfits|].
  split; [exact Hlimit|]. split; [reflexivity|].
  exact (C2_classifier_failure Sample.cpython Sample.rate_limited 1 Sample.m1
           Sample.hello "hello world" Sample.fresh Hf Hne Hfits Hlimit eq_refl).
Defined.

(** A refused item does change the word count: the only item of this run
    is answered 429 by the classifier, and the word count of the tracker,
    0 before the run, is 2 after it. *)
Lemma C2_counterexample :
  read_scores (gptzero_post Sample.rate_limited 1 "hello world") = (None, None)
  ∧ word_count (UsageTracker_init 300000) = 0
  ∧ usage_tracker (main Sample.cpython Sample.rate_limited).2
    = {| word_count := 2; word_limit := 300000; emails_processed := 1 |}
  ∧ stats (main Sample.cpython Sample.rate_limited).2
    = {| processed := 0; skipped_existing := 0;
         skipped_rate_limit := 1; errors := 0 |}.
Proof. repeat split; reflexivity. Qed.


(** A multipart message without a [text/plain] part yields the empty
    string, also when the payload has a body of its own; and a
    [text/plain] part whose bytes are not UTF-8 yields no string at all,
    the extraction raises. *)
Lemma C8_counterexample :
  get_email_body Sample.cpython Sample.html_only = inr ""
  ∧ get_email_body Sample.cpython
      {| payload_headers := [];
         payload_parts := Some [Sample.html_part "PGI-aGk8L2I-"];
         payload_body := Some {| body_data := Some "aGVsbG8gd29ybGQ=" |} |}
    = inr ""
  ∧ get_email_body Sample.cpython Sample.latin1 = inl DecodeError.
Proof. repeat split; reflexivity. Qed.

Lemma C9_witness :
  supabase_select Sample.lookup_fails 1 (meta_id Sample.m1) = SelectRaises
  ∧ (check_email_exists Sample.lookup_fails 1 (meta_id Sample.m1) Sample.fresh).1
    = inr (false, false)
  ∧ loop_iteration Sample.cpython Sample.lookup_fails 1 Sample.m1 Sample.fresh
    = loop_iteration Sample.cpython
        (with_select Sample.lookup_fails (λ _ _, SelectData [])) 1 Sample.m1 Sample.fresh
  ∧ ∀ m text,
      gmail_get Sample.lookup_fails 1 (meta_id Sample.m1) = GetMessage m →
      get_email_body Sample.cpython m = inr text →
      text ≠ "" →
      word_count (usage_tracker Sample.fresh) + count_words Sample.cpython text
        <= word_limit (usage_tracker Sample.fresh) →
      word_limit (usage_tracker Sample.fresh) ≠ 0 →
      loop_iteration Sample.cpython Sample.lookup_fails 1 Sample.m1 Sample.fresh
      = (Continue,
         {| usage_tracker :=
              (add_usage Sample.cpython (usage_tracker Sample.fresh) text).2;
            stats :=
              count_scores (read_scores (gptzero_post Sample.lookup_fails 1 text))
                (stats Sample.fresh);
            trace := trace Sample.fresh ++
              [StoreSelect 1 (meta_id Sample.m1); GmailGet 1 (meta_id Sample.m1);
               ClassifierPost 1 text;
               StoreUpsert 1
                 (upserted Sample.m1 m text
                    (read_scores (gptzero_post Sample.lookup_fails 1 text)))
                 (supabase_upsert Sample.lookup_fails 1
                    (upserted Sample.m1 m text
                       (read_scores (gptzero_post Sample.lookup_fails 1 text))));
               Sleep 1 2] |})
      ∧ errors (stats
          (loop_iteration Sample.cpython Sample.lookup_fails 1 Sample.m1 Sample.fresh).2)
        = errors (stats Sample.fresh).
Proof.
  split; [reflexivity|].
  exact (C9_lookup_failure_is_new Sample.cpython Sample.lookup_fails 1 Sample.m1
           Sample.fresh eq_refl).
Defined.

Lemma C10_witness :
  fetched Sample.cpython Sample.ai_missing 1 Sample.m1 Sample.hello "hello world"
  ∧ "hello world" ≠ ""
  ∧ word_count (usage_tracker Sample.fresh) + count_words Sample.cpython "hello world"
    <= word_limit (usage_tracker Sample.fresh)
  ∧ word_limit (usage_tracker Sample.fresh) ≠ 0
  ∧ gptzero_post Sample.ai_missing 1 "hello world"
    = PostResponse 200
        (Some {| documents :=
                   Some [ {| class_probabilities := Some Sample.human_only |} ] |})
  ∧ Sample.human_only !! "ai" = None
  ∧ read_scores (gptzero_post Sample.ai_missing 1 "hello world")
    = (Some 0%Q, Some (1 # 5)%Q)
  ∧ stats (loop_iteration Sample.cpython Sample.ai_missing 1 Sample.m1 Sample.fresh).2
    = {| processed := 1; skipped_existing := 0; skipped_rate_limit := 0; errors := 0 |}
  ∧ trace (loop_iteration Sample.cpython Sample.ai_missing 1 Sample.m1 Sample.fresh).2
    = [StoreSelect 1 "m1"; GmailGet 1 "m1"; ClassifierPost 1 "hello world";
       StoreUpsert 1
         {| message_id := "m1"; sender := "ann@example.org"; body := "hello world";
            gpt_zero_ai := Some 0%Q; gpt_zero_human := Some (1 # 5)%Q |}
         true;
       Sleep 1 2].
Proof.
  assert (fetched Sample.cpython Sample.ai_missing 1 Sample.m1 Sample.hello
            "hello world") as Hf by (repeat split; reflexivity).
  assert ("hello world" ≠ "") as Hne by discriminate.
  assert (word_count (usage_tracker Sample.fresh)
            + count_words Sample.cpython "hello world"
          <= word_limit (usage_tracker Sample.fresh)) as Hfits by discriminate.
  assert (word_limit (usage_tracker Sample.fresh) ≠ 0) as Hlimit by discriminate.
  split; [exact Hf|]. split; [exact Hne|]. split; [exact Hfits|].
  split; [exact Hlimit|]. split; [reflexivity|]. split; [reflexivity|].
  pose proof (C10_missing_probability_is_zero Sample.cpython Sample.ai_missing 1
                Sample.m1 Sample.hello "hello world" Sample.fresh
                {| documents :=
                     Some [ {| class_probabilities := Some Sample.human_only |} ] |}
                {| class_probabilities := Some Sample.human_only |} []
                Sample.human_only Hf Hne Hfits Hlimit eq_refl eq_refl eq_refl)
    as (Hread & Hai & Hhuman & Hnumbers & Hnull).
  destruct (Hnumbers 0%Q (1 # 5)%Q eq_refl eq_refl) as [Hstats Htrace].
  split; [exact Hread|]. split; [exact Hstats|]. exact Htrace.
Defined.

(** A 200 answer that is not counted as processed: the class
    probabilities are [{"ai": null}], so that [scores.get('ai', 0)] is
    [None] and [scores.get('human', 0)] is 0; the only item of the run is
    counted as skipped for the rate limit and upserted without scores. *)
Lemma C10_counterexample :
  gptzero_post Sample.null_score 1 "hello world"
  = PostResponse 200
      (Some {| documents :=
                 Some [ {| class_probabilities := Some Sample.ai_null |} ] |})
  ∧ read_scores (gptzero_post Sample.null_score 1 "hello world")
    = (None, Some 0%Q)
  ∧ stats (main Sample.cpython Sample.null_score).2
    = {| processed := 0; skipped_existing := 0;
         skipped_rate_limit := 1; errors := 0 |}
  ∧ trace (main Sample.cpython Sample.null_score).2
    = [StoreSelect 1 "m1"; GmailGet 1 "m1"; ClassifierPost 1 "hello world";
       StoreUpsert 1
         {| message_id := "m1"; sender := "ann@example.org"; body := "hello world";
            gpt_zero_ai := None; gpt_zero_human := None |}
         true;
       Sleep 1 2].
Proof. repeat split; reflexivity. Qed.

(** * Further properties of the script *)

(** ** The word counter *)

Lemma findall_words_separator R s1 : ∀ cur c s2,
  is_word_char R c = false →
  findall_words R cur (s1 +:+ String c s2)
  = findall_words R cur s1 ++ findall_words R None s2.
Proof.
  induction s1 as [|a s1 IH]; intros cur c s2 Hc; simpl.
  - rewrite Hc. by destruct cur.
  - destruct (is_word_char R a).
    + by apply IH.
    + destruct cur; simpl; by rewrite IH.
Qed.

(** X1. A character that is not a word character separates: the words of
    a text cut at such a character are the words before it and the words
    after it. *)
Theorem count_words_separator (R : runtime) (s1 s2 : string) (c : ascii) :
  is_word_char R c = false →
  count_words R (s1 +:+ String c s2) = count_words R s1 + count_words R s2.
Proof.
  intros Hc. unfold count_words.
  rewrite findall_words_separator by done.
  rewrite length_app. lia.
Qed.

Lemma count_words_separator_witness :
  is_word_char Sample.cpython " " = false
  ∧ count_words Sample.cpython ("one two" +:+ String " " "three")
    = count_words Sample.cpython "one two" + count_words Sample.cpython "three".
Proof.
  split; [reflexivity|].
  apply (count_words_separator Sample.cpython "one two" "three" " ").
  reflexivity.
Defined.

Lemma all_word_chars_snoc R w c :
  all_word_chars R (w +:+ String c "") = all_word_chars R w && is_word_char R c.
Proof.
  induction w as [|a w IH]; simpl.
  - by rewrite andb_true_r.
  - by rewrite IH, andb_assoc.
Qed.

Lemma snoc_not_empty w c : w +:+ String c "" ≠ "".
Proof. by destruct w. Qed.

Lemma findall_words_wellformed R text : ∀ cur,
  (∀ w, cur = Some w → w ≠ "" ∧ all_word_chars R w = true) →
  Forall (λ w, w ≠ "" ∧ all_word_chars R w = true) (findall_words R cur text).
Proof.
  induction text as [|c text IH]; intros cur Hcur; simpl.
  - destruct cur as [w|]; [|done]. constructor; [by apply Hcur|done].
  - destruct (is_word_char R c) eqn:Hc.
    + apply IH. intros w [= <-]. split; [apply snoc_not_empty|].
      rewrite all_word_chars_snoc, Hc, andb_true_r.
      destruct cur as [w0|]; simpl; [by apply Hcur|done].
    + destruct cur as [w|].
      * constructor; [by apply Hcur|]. by apply IH.
      * by apply IH.
Qed.

(** X2. Every word that [findall] finds is a non-empty run of word
    characters. *)
Theorem findall_words_are_words (R : runtime) (text : string) :
  Forall (λ w, w ≠ "" ∧ all_word_chars R w = true) (findall_words R None text).
Proof. by apply findall_words_wellformed. Qed.

Lemma findall_words_length R text : ∀ cur,
  (2 * length (findall_words R cur text)
   ≤ String.length text + match cur with Some _ => 2 | None => 1 end)%nat.
Proof.
  induction text as [|c text IH]; intros cur; simpl.
  - destruct cur; simpl; lia.
  - destruct (is_word_char R c).
    + specialize (IH (Some (default "" cur +:+ String c ""))). simpl in IH.
      destruct cur; lia.
    + specialize (IH None). destruct cur; simpl in *; lia.
Qed.

(** X3. A text of [n] characters has at most [(n + 1) / 2] words: words
    are separated by at least one character. *)
Theorem count_words_bound (R : runtime) (text : string) :
  0 <= count_words R text
  ∧ 2 * count_words R text <= Z.of_nat (String.length text) + 1.
Proof.
  unfold count_words. pose proof (findall_words_length R text None) as H.
  simpl in H. lia.
Qed.

Lemma findall_words_open R text w : findall_words R (Some w) text ≠ [].
Proof.
  revert w. induction text as [|c text IH]; intros w; simpl; [done|].
  destruct (is_word_char R c); [apply IH|done].
Qed.

Lemma findall_words_nil R text :
  findall_words R None text = [] ↔ has_word_char R text = false.
Proof.
  induction text as [|c text IH]; simpl; [done|].
  destruct (is_word_char R c); simpl; [|done].
  split; [|done]. intros H. by apply findall_words_open in H.
Qed.

(** X4. The count is zero exactly for the texts without any word
    character: the empty text, blanks, punctuation. *)
Theorem count_words_zero (R : runtime) (text : string) :
  count_words R text = 0 ↔ has_word_char R text = false.
Proof.
  rewrite <- findall_words_nil. unfold count_words.
  destruct (findall_words R None text); simpl; split; intros; (done || lia).
Qed.

(** ** The tracker *)

Lemma add_usage_all_fields R texts : ∀ self,
  word_limit (add_usage_all R self texts).2 = word_limit self
  ∧ emails_processed (add_usage_all R self texts).2
    = emails_processed self + Z.of_nat (length texts)
  ∧ length (add_usage_all R self texts).1 = length texts.
Proof.
  induction texts as [|text rest IH]; intros self; simpl.
  - split; [done|]. split; [lia|done].
  - specialize (IH (add_usage R self text).2). simpl in IH.
    destruct (add_usage_all R _ rest) as [charged final]. simpl in *.
    destruct IH as (-> & -> & ->). split; [done|]. split; [lia|done].
Qed.

(** X5. After any sequence of charges on a fresh tracker whose limit is
    not zero, the statistics report the sum of the charges, what is left
    of the limit, and as many emails as there were charges. *)
Theorem get_stats_after_charges (R : runtime) (limit : Z) (texts : list string) :
  limit ≠ 0 →
  get_stats (add_usage_all R (UsageTracker_init limit) texts).2
  = inr {| total_words := sum_Z (add_usage_all R (UsageTracker_init limit) texts).1;
           words_remaining :=
             limit - sum_Z (add_usage_all R (UsageTracker_init limit) texts).1;
           stats_emails_processed := Z.of_nat (length texts) |}.
Proof.
  intros Hlimit. unfold get_stats.
  destruct (add_usage_all_fields R texts (UsageTracker_init limit))
    as (Hl & Hp & _).
  pose proof (add_usage_all_sum R texts (UsageTracker_init limit)) as Hs.
  simpl in *. rewrite Hl, Hp, Hs.
  apply Z.eqb_neq in Hlimit. rewrite Hlimit. f_equal.
Qed.

Lemma get_stats_after_charges_witness :
  300000 ≠ 0
  ∧ get_stats (add_usage_all Sample.cpython (UsageTracker_init 300000)
                 ["hello world"; "!!!"; Sample.ten_text]).2
    = inr {| total_words := 12; words_remaining := 299988;
             stats_emails_processed := 3 |}.
Proof.
  split; [discriminate|].
  apply (get_stats_after_charges Sample.cpython 300000
           ["hello world"; "!!!"; Sample.ten_text]).
  discriminate.
Defined.

(** ** The answers of the store and of the classifier *)

(** X6. A message is skipped exactly when the select answers with at
    least one row and the first row has both scores; a first row with one
    score or none is scored again, and the rows after the first are not
    looked at. *)
Theorem skips_iff_first_row_scored (srv : services) (i : nat) (mid : string) :
  skips srv i mid = true
  ↔ ∃ email rows ai human,
      supabase_select srv i mid = SelectData (email :: rows)
      ∧ row_gpt_zero_ai email = Some ai
      ∧ row_gpt_zero_human email = Some human.
Proof.
  unfold skips, read_exists. split.
  - destruct (supabase_select srv i mid) as [|[|email rows]]; simpl; try done.
    intros H. apply andb_true_iff in H as [Hai Hhuman].
    apply bool_decide_eq_true in Hai, Hhuman.
    destruct (row_gpt_zero_ai email) as [ai|] eqn:Ea; [|done].
    destruct (row_gpt_zero_human email) as [human|] eqn:Eh; [|done].
    by exists email, rows, ai, human.
  - intros (email & rows & ai & human & -> & Ha & Hh). simpl.
    rewrite Ha, Hh. done.
Qed.

(** The answer is a 200 whose JSON has a first document with class
    probabilities, or it is read as [(None, None)]. *)
Lemma read_scores_shape response :
  (∃ result doc docs scores,
     response = PostResponse 200 (Some result)
     ∧ documents result = Some (doc :: docs)
     ∧ class_probabilities doc = Some scores)
  ∨ read_scores response = (None, None).
Proof.
  destruct response as [|status [result|]]; simpl; [by right| |].
  - destruct (status =? 200) eqn:Hs.
    + apply Z.eqb_eq in Hs as ->.
      destruct (documents result) as [[|doc docs]|] eqn:Hd; [by right| |by right].
      destruct (class_probabilities doc) as [scores|] eqn:Hc; [|by right].
      left. by exists result, doc, docs, scores.
    + right. by destruct (status =? 429).
  - right. destruct (status =? 200); [done|]. by destruct (status =? 429).
Qed.

Lemma get_score_is_number (value : option (option Q)) :
  (∃ q, default (Some 0%Q) value = Some q) ↔ value ≠ Some None.
Proof.
  destruct value as [[q|]|]; simpl.
  - split; [done|eauto].
  - split; [by intros [q ?]|done].
  - split; [done|eauto].
Qed.

(** X7. From a 200 answer whose JSON has a first document with class
    probabilities, each of the two scores is read as the value stored
    under its key, 0 when the key is missing and [None] when it holds
    [null]; every other answer is read as [(None, None)]; so two numbers
    are read exactly from such a 200 answer that holds [null] under
    neither key. *)
Theorem read_scores_cases (response : post_response) :
  (∀ result doc docs scores,
     response = PostResponse 200 (Some result) →
     documents result = Some (doc :: docs) →
     class_probabilities doc = Some scores →
     read_scores response
     = (default (Some 0%Q) (scores !! "ai"), default (Some 0%Q) (scores !! "human")))
  ∧ ((¬ ∃ result doc docs scores,
          response = PostResponse 200 (Some result)
          ∧ documents result = Some (doc :: docs)
          ∧ class_probabilities doc = Some scores) →
     read_scores response = (None, None))
  ∧ ((∃ ai human, read_scores response = (Some ai, Some human))
     ↔ ∃ result doc docs scores,
         response = PostResponse 200 (Some result)
         ∧ documents result = Some (doc :: docs)
         ∧ class_probabilities doc = Some scores
         ∧ scores !! "ai" ≠ Some None
         ∧ scores !! "human" ≠ Some None).
Proof.
  split_and!.
  - intros result doc docs scores -> Hd Hc. by apply (read_scores_200 _ doc docs).
  - intros Hnot. by destruct (read_scores_shape response) as [H|H].
  - split.
    + intros (ai & human & Hread).
      destruct (read_scores_shape response)
        as [(result & doc & docs & scores & -> & Hd & Hc)|H]; [|congruence].
      rewrite (read_scores_200 _ doc docs scores Hd Hc) in Hread.
      injection Hread as Hai Hhuman.
      exists result, doc, docs, scores.
      split; [done|]. split; [done|]. split; [done|].
      split; apply get_score_is_number; eauto.
    + intros (result & doc & docs & scores & -> & Hd & Hc & Hai & Hhuman).
      apply get_score_is_number in Hai as [ai Hai].
      apply get_score_is_number in Hhuman as [human Hhuman].
      exists ai, human.
      by rewrite (read_scores_200 _ doc docs scores Hd Hc), Hai, Hhuman.
Qed.

(** ** The sender *)

Lemma header_from_none headers :
  (∀ h, h ∈ headers → lower h.1 ≠ "from") → header_from headers = "".
Proof.
  induction headers as [|[name value] headers IH]; intros H; simpl; [done|].
  assert (lower name ≠ "from") as Hn by (apply (H (name, value)); by left).
  apply String.eqb_neq in Hn. rewrite Hn.
  apply IH. intros h Hh. apply H. by right.
Qed.

(** X8. The sender is the value of the first header whose name is
    [from] in any mix of upper and lower case, and the empty string when
    the message has no such header. *)
Theorem header_from_first_match (before after : list (string * string))
  (name value : string) :
  lower name = "from" →
  (∀ h, h ∈ before → lower h.1 ≠ "from") →
  header_from (before ++ (name, value) :: after) = value
  ∧ header_from before = "".
Proof.
  intros Hname Hbefore. split; [|by apply header_from_none].
  induction before as [|[n v] before IH]; simpl.
  - by rewrite Hname.
  - assert (lower n ≠ "from") as Hn by (apply (Hbefore (n, v)); by left).
    apply String.eqb_neq in Hn. rewrite Hn.
    apply IH. intros h Hh. apply Hbefore. by right.
Qed.

Lemma header_from_first_match_witness :
  lower "FROM" = "from"
  ∧ (∀ h, h ∈ [("To", "me@example.org"); ("Subject", "from me")] →
          lower h.1 ≠ "from")
  ∧ header_from ([("To", "me@example.org"); ("Subject", "from me")]
                 ++ ("FROM", "ann@example.org") :: [("From", "bob@example.org")])
    = "ann@example.org"
  ∧ header_from [("To", "me@example.org"); ("Subject", "from me")] = "".
Proof.
  assert (∀ h, h ∈ [("To", "me@example.org"); ("Subject", "from me")] →
               lower h.1 ≠ "from") as Hbefore.
  { intros h Hh. apply elem_of_cons in Hh as [->|Hh]; [discriminate|].
    apply elem_of_cons in Hh as [->|Hh]; [discriminate|].
    by apply elem_of_nil in Hh. }
  split; [reflexivity|]. split; [exact Hbefore|].
  exact (header_from_first_match [("To", "me@example.org"); ("Subject", "from me")]
           [("From", "bob@example.org")] "FROM" "ann@example.org"
           eq_refl Hbefore).
Defined.

(** ** The accounts of a run *)

Lemma for_loop_invariant R srv (P : state → Prop) :
  (∀ i meta st, P st → P (loop_iteration R srv i meta st).2) →
  ∀ messages i st, P st → P (for_loop R srv i messages st).
Proof.
  intros Hstep messages. induction messages as [|meta rest IH]; intros i st Hst;
    simpl; [done|].
  specialize (Hstep i meta st Hst).
  destruct (loop_iteration R srv i meta st) as [[|] st']; simpl in *; auto.
Qed.

Lemma count_events_app p tr1 tr2 :
  count_events p (tr1 ++ tr2) = count_events p tr1 + count_events p tr2.
Proof. unfold count_events. rewrite List.filter_app, length_app. lia. Qed.

Lemma count_events_nonneg p tr : 0 <= count_events p tr.
Proof. unfold count_events. lia. Qed.

Ltac count_path :=
  simpl; rewrite ?count_events_app; unfold count_events, counted; simpl;
  repeat match goal with
  | |- context [read_scores ?r] => destruct (read_scores r) as [[?|] [?|]]; simpl
  end.

(** One iteration counts its message once, unless it leaves the loop. *)
Lemma loop_iteration_counted R srv i meta st :
  counted (stats (loop_iteration R srv i meta st).2)
  = counted (stats st)
    + match (loop_iteration R srv i meta st).1 with Continue => 1 | Break => 0 end
  ∧ count_events is_select (trace (loop_iteration R srv i meta st).2)
    = count_events is_select (trace st) + 1.
Proof.
  destruct (loop_iteration_path R srv i meta st); count_path; lia.
Qed.

Lemma for_loop_counted R srv messages : ∀ i st,
  (count_events is_select (trace (for_loop R srv i messages st))
   - counted (stats (for_loop R srv i messages st))
   = count_events is_select (trace st) - counted (stats st)
   ∨ count_events is_select (trace (for_loop R srv i messages st))
     - counted (stats (for_loop R srv i messages st))
     = count_events is_select (trace st) - counted (stats st) + 1)
  ∧ count_events is_select (trace (for_loop R srv i messages st))
    <= count_events is_select (trace st) + Z.of_nat (length messages).
Proof.
  induction messages as [|meta rest IH]; intros i st; simpl.
  { split; [by left|lia]. }
  destruct (loop_iteration_counted R srv i meta st) as [Hc Hs].
  destruct (loop_iteration R srv i meta st) as [[|] st']; simpl in *.
  - specialize (IH (S i) st'). lia.
  - lia.
Qed.

(** X9. In a run, every message that was looked up is counted in exactly
    one of the four counters, except the message at which the quota check
    ended the loop: the counters add up to the number of lookups or to one
    less, and to at most the number of candidates. *)
Theorem counters_account_for_lookups (R : runtime) (srv : services)
  (ut : UsageTracker) (messages : list message_meta) :
  counted (stats (process_messages R srv ut messages).2)
  <= count_events is_select (trace (process_messages R srv ut messages).2)
  ∧ count_events is_select (trace (process_messages R srv ut messages).2)
    <= counted (stats (process_messages R srv ut messages).2) + 1
  ∧ count_events is_select (trace (process_messages R srv ut messages).2)
    <= Z.of_nat (length messages).
Proof.
  unfold process_messages. simpl.
  pose proof (for_loop_counted R srv messages 1 (initial_state ut)) as H.
  simpl in H.
  change (count_events is_select []) with 0 in H.
  change (counted Stats_init) with 0 in H. lia.
Qed.

Lemma loop_iteration_posts R srv i meta st :
  count_events is_post (trace (loop_iteration R srv i meta st).2)
  - processed (stats (loop_iteration R srv i meta st).2)
  - skipped_rate_limit (stats (loop_iteration R srv i meta st).2)
  = count_events is_post (trace st) - processed (stats st)
    - skipped_rate_limit (stats st)
  ∧ count_events is_upsert (trace (loop_iteration R srv i meta st).2)
    - count_events is_post (trace (loop_iteration R srv i meta st).2)
    = count_events is_upsert (trace st) - count_events is_post (trace st)
  ∧ count_events is_sleep (trace (loop_iteration R srv i meta st).2)
    - count_events is_post (trace (loop_iteration R srv i meta st).2)
    = count_events is_sleep (trace st) - count_events is_post (trace st).
Proof.
  destruct (loop_iteration_path R srv i meta st); count_path; lia.
Qed.

(** X10. In a run, the requests to the classifier are as many as the
    messages counted as processed or as skipped for the rate limit, each
    request is followed by one upsert and one pause, and nothing is
    upserted without a request. *)
Theorem requests_upserts_and_pauses (R : runtime) (srv : services)
  (ut : UsageTracker) (messages : list message_meta) :
  count_events is_post (trace (process_messages R srv ut messages).2)
  = processed (stats (process_messages R srv ut messages).2)
    + skipped_rate_limit (stats (process_messages R srv ut messages).2)
  ∧ count_events is_upsert (trace (process_messages R srv ut messages).2)
    = count_events is_post (trace (process_messages R srv ut messages).2)
  ∧ count_events is_sleep (trace (process_messages R srv ut messages).2)
    = count_events is_post (trace (process_messages R srv ut messages).2).
Proof.
  unfold process_messages. simpl.
  apply (for_loop_invariant R srv (λ st,
    count_events is_post (trace st)
    = processed (stats st) + skipped_rate_limit (stats st)
    ∧ count_events is_upsert (trace st) = count_events is_post (trace st)
    ∧ count_events is_sleep (trace st) = count_events is_post (trace st))).
  - intros i meta st (H1 & H2 & H3).
    destruct (loop_iteration_posts R srv i meta st) as (K1 & K2 & K3). lia.
  - done.
Qed.

Lemma loop_iteration_emails_processed R srv i meta st :
  word_limit (usage_tracker st) ≠ 0 →
  emails_processed (usage_tracker (loop_iteration R srv i meta st).2)
  - count_events is_post (trace (loop_iteration R srv i meta st).2)
  = emails_processed (usage_tracker st) - count_events is_post (trace st)
  ∧ word_limit (usage_tracker (loop_iteration R srv i meta st).2)
    = word_limit (usage_tracker st).
Proof.
  intros Hlimit.
  destruct (loop_iteration_path R srv i meta st); count_path; try done; lia.
Qed.

(** X11. With a limit that is not zero, the tracker's number of emails
    grows in a run by the number of requests made to the classifier,
    answered with scores or not. *)
Theorem emails_processed_counts_requests (R : runtime) (srv : services)
  (ut : UsageTracker) (messages : list message_meta) :
  word_limit ut ≠ 0 →
  emails_processed (usage_tracker (process_messages R srv ut messages).2)
  = emails_processed ut
    + count_events is_post (trace (process_messages R srv ut messages).2)
  ∧ emails_processed (usage_tracker (process_messages R srv ut messages).2)
    = emails_processed ut
      + processed (stats (process_messages R srv ut messages).2)
      + skipped_rate_limit (stats (process_messages R srv ut messages).2).
Proof.
  intros Hlimit. unfold process_messages. simpl.
  enough (word_limit (usage_tracker (for_loop R srv 1 messages (initial_state ut))) ≠ 0
          ∧ emails_processed (usage_tracker (for_loop R srv 1 messages (initial_state ut)))
            = emails_processed ut
              + count_events is_post (trace (for_loop R srv 1 messages (initial_state ut)))
          ∧ count_events is_post (trace (for_loop R srv 1 messages (initial_state ut)))
            = processed (stats (for_loop R srv 1 messages (initial_state ut)))
              + skipped_rate_limit (stats (for_loop R srv 1 messages (initial_state ut))))
    as (H0 & H1 & H2) by lia.
  apply (for_loop_invariant R srv (λ st,
    word_limit (usage_tracker st) ≠ 0
    ∧ emails_processed (usage_tracker st)
      = emails_processed ut + count_events is_post (trace st)
    ∧ count_events is_post (trace st)
      = processed (stats st) + skipped_rate_limit (stats st))).
  - intros i meta st (H0 & H1 & H2).
    destruct (loop_iteration_emails_processed R srv i meta st H0) as [K1 K2].
    destruct (loop_iteration_posts R srv i meta st) as (K3 & _).
    split; [congruence|]. lia.
  - simpl. change (count_events is_post []) with 0. split; [done|]. lia.
Qed.

Lemma emails_processed_counts_requests_witness :
  word_limit (UsageTracker_init 300000) ≠ 0
  ∧ emails_processed (usage_tracker
      (process_messages Sample.cpython Sample.rate_limited
         (UsageTracker_init 300000) [Sample.m1; Sample.m2]).2)
    = emails_processed (UsageTracker_init 300000)
      + count_events is_post (trace
          (process_messages Sample.cpython Sample.rate_limited
             (UsageTracker_init 300000) [Sample.m1; Sample.m2]).2)
  ∧ emails_processed (usage_tracker
      (process_messages Sample.cpython Sample.rate_limited
         (UsageTracker_init 300000) [Sample.m1; Sample.m2]).2)
    = emails_processed (UsageTracker_init 300000)
      + processed (stats
          (process_messages Sample.cpython Sample.rate_limited
             (UsageTracker_init 300000) [Sample.m1; Sample.m2]).2)
      + skipped_rate_limit (stats
          (process_messages Sample.cpython Sample.rate_limited
             (UsageTracker_init 300000) [Sample.m1; Sample.m2]).2).
Proof.
  split; [discriminate|].
  apply (emails_processed_counts_requests Sample.cpython Sample.rate_limited
           (UsageTracker_init 300000) [Sample.m1; Sample.m2]).
  discriminate.
Defined.

Lemma loop_iteration_post_at R srv i meta st k :
  count_events (is_post_at k) (trace (loop_iteration R srv i meta st).2)
  <= count_events (is_post_at k) (trace st) + (if Nat.eqb k i then 1 else 0).
Proof.
  destruct (loop_iteration_path R srv i meta st); simpl;
    rewrite count_events_app; unfold count_events; simpl;
    destruct (Nat.eqb k i); simpl; lia.
Qed.

Lemma for_loop_post_at R srv k messages : ∀ i st,
  count_events (is_post_at k) (trace (for_loop R srv i messages st))
  <= count_events (is_post_at k) (trace st) + (if (i <=? k)%nat then 1 else 0).
Proof.
  induction messages as [|meta rest IH]; intros i st; simpl.
  { destruct (i <=? k)%nat; lia. }
  pose proof (loop_iteration_post_at R srv i meta st k) as Hk.
  destruct (loop_iteration R srv i meta st) as [[|] st']; simpl in *.
  - specialize (IH (S i) st').
    destruct (Nat.eqb_spec k i) as [->|Hne].
    + rewrite Nat.leb_refl.
      destruct (Nat.leb_spec (S i) i); lia.
    + destruct (Nat.leb_spec (S i) k), (Nat.leb_spec i k); lia.
  - destruct (Nat.eqb_spec k i) as [->|Hne].
    + by rewrite Nat.leb_refl.
    + destruct (i <=? k)%nat; lia.
Qed.

(** X12. In a run, at most one request is made to the classifier for
    each candidate. *)
Theorem one_request_per_candidate (R : runtime) (srv : services)
  (ut : UsageTracker) (messages : list message_meta) (k : nat) :
  count_events (is_post_at k) (trace (process_messages R srv ut messages).2) <= 1.
Proof.
  unfold process_messages. simpl.
  pose proof (for_loop_post_at R srv k messages 1 (initial_state ut)) as H.
  change (count_events (is_post_at k) (trace (initial_state ut))) with 0 in H.
  destruct (1 <=? k)%nat; lia.
Qed.

(** ** The calls of a run, message by message *)

Lemma loop_iteration_calls R srv i meta st :
  ∃ evs,
    trace (loop_iteration R srv i meta st).2 = trace st ++ evs
    ∧ iteration_calls R srv i meta evs.
Proof.
  destruct (loop_iteration_path R srv i meta st)
    as [H|H|m body [H ?]|m body [H ?]|m body Hf]; simpl;
    eexists; (split; [reflexivity|]).
  - constructor.
  - by constructor.
  - by constructor.
  - by constructor.
  - by econstructor.
Qed.

Lemma for_loop_calls R srv messages : ∀ i st,
  ∃ evss,
    trace (for_loop R srv i messages st) = trace st ++ concat evss
    ∧ (length evss ≤ length messages)%nat
    ∧ ∀ k evs,
        evss !! k = Some evs →
        ∃ meta, messages !! k = Some meta
                ∧ iteration_calls R srv (i + k) meta evs.
Proof.
  induction messages as [|meta rest IH]; intros i st; simpl.
  { exists []. simpl. rewrite app_nil_r. split; [done|]. split; [done|].
    intros k evs Hk. by rewrite lookup_nil in Hk. }
  destruct (loop_iteration_calls R srv i meta st) as (evs1 & Htr & Hcalls).
  assert (∀ tail k evs,
            (evs1 :: tail) !! k = Some evs →
            (∀ k' evs', tail !! k' = Some evs' →
               ∃ meta', rest !! k' = Some meta'
                        ∧ iteration_calls R srv (S i + k') meta' evs') →
            ∃ meta', (meta :: rest) !! k = Some meta'
                     ∧ iteration_calls R srv (i + k) meta' evs) as Hcons.
  { intros tail [|k] evs Hk Htail; simpl in *.
    - simplify_eq. exists meta. by rewrite Nat.add_0_r.
    - destruct (Htail k evs Hk) as (meta' & Hm & Hc).
      exists meta'. by rewrite Nat.add_succ_r. }
  destruct (loop_iteration R srv i meta st) as [[|] st']; simpl in *.
  - destruct (IH (S i) st') as (evss & Htr2 & Hlen & Hall).
    exists (evs1 :: evss). simpl. split; [|split].
    + by rewrite Htr2, Htr, app_assoc.
    + lia.
    + intros k evs Hk. by apply (Hcons evss).
  - exists [evs1]. simpl. rewrite app_nil_r. split; [done|]. split; [lia|].
    intros k evs Hk. apply (Hcons []); [done|].
    intros k' evs' Hk'. by rewrite lookup_nil in Hk'.
Qed.

(** X13. The calls of a run are the calls of its iterations, one
    candidate after the other in the order of the listing: for each
    candidate the lookup alone, or the lookup and the fetch, or the lookup,
    the fetch, one request to the classifier with the body, the upsert of
    the record and a pause of two seconds. *)
Theorem calls_of_a_run (R : runtime) (srv : services) (ut : UsageTracker)
  (messages : list message_meta) :
  ∃ evss,
    trace (process_messages R srv ut messages).2 = concat evss
    ∧ (length evss ≤ length messages)%nat
    ∧ ∀ k evs,
        evss !! k = Some evs →
        ∃ meta, messages !! k = Some meta
                ∧ iteration_calls R srv (S k) meta evs.
Proof.
  unfold process_messages. simpl.
  destruct (for_loop_calls R srv messages 1 (initial_state ut))
    as (evss & Htr & Hlen & Hall).
  exists evss. split; [exact Htr|]. split; [exact Hlen|]. exact Hall.
Qed.

Lemma upserted_fields meta m text scores :
  message_id (upserted meta m text scores) = meta_id meta
  ∧ body (upserted meta m text scores) = text
  ∧ sender (upserted meta m text scores) = header_from (payload_headers m)
  ∧ (gpt_zero_ai (upserted meta m text scores) = None
     ↔ gpt_zero_human (upserted meta m text scores) = None).
Proof. by destruct scores as [[?|] [?|]]. Qed.

(** X14. Every record that a run upserts has both scores or none, a body
    that is not empty and that was sent to the classifier in the same
    iteration, and the identity of the candidate of that iteration. *)
Theorem upserted_records (R : runtime) (srv : services) (ut : UsageTracker)
  (messages : list message_meta) (i : nat) (data : email_data) (ok : bool) :
  StoreUpsert i data ok ∈ trace (process_messages R srv ut messages).2 →
  (gpt_zero_ai data = None ↔ gpt_zero_human data = None)
  ∧ body data ≠ ""
  ∧ ClassifierPost i (body data) ∈ trace (process_messages R srv ut messages).2
  ∧ ok = supabase_upsert srv i data
  ∧ ∃ k meta, i = S k ∧ messages !! k = Some meta
              ∧ message_id data = meta_id meta.
Proof.
  unfold process_messages. simpl.
  destruct (for_loop_calls R srv messages 1 (initial_state ut))
    as (evss & Htr & _ & Hall).
  simpl in Htr. rewrite Htr. intros Hin.
  apply list_elem_of_In, in_concat in Hin as (evs & Hevs & Hin).
  apply list_elem_of_In, list_elem_of_lookup in Hevs as [k Hk].
  destruct (Hall k evs Hk) as (meta & Hm & Hcalls). simpl in Hcalls.
  assert (∀ e, e ∈ evs → e ∈ concat evss) as Hsub.
  { intros e He. apply list_elem_of_In, in_concat. exists evs.
    split; [|by apply list_elem_of_In].
    apply list_elem_of_In, list_elem_of_lookup. eauto. }
  apply list_elem_of_In in Hin.
  destruct Hcalls as [|Hs|m text Hf Hne].
  - apply list_elem_of_singleton in Hin. discriminate.
  - apply elem_of_cons in Hin as [Hin|Hin]; [discriminate|].
    apply list_elem_of_singleton in Hin. discriminate.
  - repeat (apply elem_of_cons in Hin as [Hin|Hin]; [try discriminate|]);
      [|by apply elem_of_nil in Hin].
    injection Hin as -> -> ->.
    destruct (upserted_fields meta m text (read_scores (gptzero_post srv (S k) text)))
      as (Hid & Hbody & Hsender & Hboth).
    rewrite Hbody.
    refine (conj Hboth (conj Hne (conj _ (conj eq_refl _)))).
    + apply Hsub. do 2 apply list_elem_of_further. apply list_elem_of_here.
    + by exists k, meta.
Qed.

Lemma upserted_records_witness :
  StoreUpsert 1
    {| message_id := "m1"; sender := "ann@example.org"; body := "hello world";
       gpt_zero_ai := Some 0%Q; gpt_zero_human := Some (1 # 5)%Q |} true
    ∈ trace (process_messages Sample.cpython Sample.ai_missing
               (UsageTracker_init 300000) [Sample.m1]).2
  ∧ ((Some 0%Q = None ↔ Some (1 # 5)%Q = None :> option Q)
     ∧ "hello world" ≠ ""
     ∧ ClassifierPost 1 "hello world"
       ∈ trace (process_messages Sample.cpython Sample.ai_missing
                  (UsageTracker_init 300000) [Sample.m1]).2
     ∧ true = supabase_upsert Sample.ai_missing 1
                {| message_id := "m1"; sender := "ann@example.org";
                   body := "hello world";
                   gpt_zero_ai := Some 0%Q; gpt_zero_human := Some (1 # 5)%Q |}
     ∧ ∃ k meta, 1%nat = S k ∧ [Sample.m1] !! k = Some meta
                 ∧ "m1" = meta_id meta).
Proof.
  assert (StoreUpsert 1
            {| message_id := "m1"; sender := "ann@example.org";
               body := "hello world";
               gpt_zero_ai := Some 0%Q; gpt_zero_human := Some (1 # 5)%Q |} true
          ∈ trace (process_messages Sample.cpython Sample.ai_missing
                     (UsageTracker_init 300000) [Sample.m1]).2) as Hin.
  { change (trace (process_messages Sample.cpython Sample.ai_missing
                     (UsageTracker_init 300000) [Sample.m1]).2)
      with [StoreSelect 1 "m1"; GmailGet 1 "m1"; ClassifierPost 1 "hello world";
            StoreUpsert 1
              {| message_id := "m1"; sender := "ann@example.org";
                 body := "hello world";
                 gpt_zero_ai := Some 0%Q; gpt_zero_human := Some (1 # 5)%Q |} true;
            Sleep 1 2].
    do 3 apply list_elem_of_further. apply list_elem_of_here. }
  split; [exact Hin|].
  exact (upserted_records Sample.cpython Sample.ai_missing
           (UsageTracker_init 300000) [Sample.m1] 1 _ true Hin).
Defined.

(** ** The outcome of [main] *)

Lemma loop_iteration_word_count_nonneg R srv i meta st :
  0 <= word_count (usage_tracker st) →
  0 <= word_count (usage_tracker (loop_iteration R srv i meta st).2).
Proof.
  intros Hst.
  destruct (loop_iteration_tracker R srv i meta st) as [->|(text & -> & _)];
    [done|].
  simpl. pose proof (count_words_nonneg R text). lia.
Qed.

Lemma process_messages_report R srv messages :
  ∃ usage,
    (process_messages R srv (UsageTracker_init 300000) messages).1
    = Completed (stats (process_messages R srv (UsageTracker_init 300000) messages).2)
        usage
    ∧ 0 <= total_words usage <= 300000
    ∧ words_remaining usage = 300000 - total_words usage
    ∧ 0 <= counted (stats (process_messages R srv (UsageTracker_init 300000) messages).2)
      <= Z.of_nat (length messages).
Proof.
  unfold process_messages. cbn [fst snd].
  set (st := for_loop R srv 1 messages (initial_state (UsageTracker_init 300000))).
  destruct (for_loop_within_limit R srv messages 1
              (initial_state (UsageTracker_init 300000))) as [Hin Hlim].
  { unfold within_limit. simpl. lia. }
  fold st in Hin, Hlim. unfold within_limit in Hin.
  change (word_limit (usage_tracker (initial_state (UsageTracker_init 300000))))
    with 300000 in Hlim.
  assert (0 <= word_count (usage_tracker st)) as Hpos.
  { apply (for_loop_invariant R srv (λ s, 0 <= word_count (usage_tracker s))).
    - intros i m s. apply loop_iteration_word_count_nonneg.
    - simpl. lia. }
  pose proof (for_loop_counted R srv messages 1
                (initial_state (UsageTracker_init 300000))) as [Hd Hs].
  fold st in Hd, Hs.
  change (count_events is_select (trace (initial_state (UsageTracker_init 300000))))
    with 0 in Hd, Hs.
  change (counted (stats (initial_state (UsageTracker_init 300000)))) with 0 in Hd.
  assert (0 <= counted (stats st)) as Hc.
  { apply (for_loop_invariant R srv (λ s, 0 <= counted (stats s))).
    - intros i m s Hs0.
      destruct (loop_iteration_counted R srv i m s) as [-> _].
      destruct (loop_iteration R srv i m s).1; lia.
    - done. }
  unfold final_report, get_stats. rewrite Hlim. rewrite Hlim in Hin.
  change (300000 =? 0) with false. cbv iota.
  eexists. split; [reflexivity|]. simpl.
  split; [lia|]. split; [done|]. lia.
Qed.

(** X15. [main] fails only when a client cannot be built or the listing
    raises, and then no message is touched; an empty listing ends it
    without a report; otherwise it always ends with the report, in which
    the words used are between 0 and 300000, the words remaining are the
    rest of the 300000, and the counters add up to at most the number of
    candidates. *)
Theorem main_outcome (R : runtime) (srv : services) :
  match (main R srv).1 with
  | Fatal e =>
      trace (main R srv).2 = []
      ∧ ((services_init srv = false ∧ e = InitError)
         ∨ (services_init srv = true ∧ gmail_list srv = None ∧ e = GmailError))
  | NoMessages =>
      services_init srv = true ∧ gmail_list srv = Some []
      ∧ trace (main R srv).2 = []
  | Completed final usage =>
      ∃ messages,
        services_init srv = true ∧ gmail_list srv = Some messages
        ∧ messages ≠ []
        ∧ final = stats (main R srv).2
        ∧ 0 <= total_words usage <= 300000
        ∧ words_remaining usage = 300000 - total_words usage
        ∧ 0 <= counted final <= Z.of_nat (length messages)
  end.
Proof.
  unfold main.
  destruct (services_init srv) eqn:Hinit; [|simpl; by auto].
  cbn [negb].
  destruct (gmail_list srv) as [[|meta rest]|] eqn:Hlist;
    [simpl; done| |simpl; by auto].
  destruct (process_messages_report R srv (meta :: rest))
    as (usage & Hr & Ht & Hw & Hc).
  rewrite Hr. exists (meta :: rest).
  split; [done|]. split; [done|]. split; [done|]. split; [done|]. done.
Qed.

(** ** The quota at its limit, and a limit of zero *)

Lemma count_words_pos R text :
  0 < count_words R text ↔ has_word_char R text = true.
Proof.
  pose proof (findall_words_nil R text) as H. unfold count_words.
  destruct (findall_words R None text); simpl in *.
  - split; [lia|]. intros Ht. destruct H as [H _]. rewrite H in Ht; done.
  - split; [|lia]. intros _. destruct (has_word_char R text); [done|].
    destruct H as [_ H]. by specialize (H eq_refl).
Qed.

(** X16. Once the word count has reached the limit, a message whose body
    has a word ends the loop, while a body that is not empty and has no
    word (punctuation, blanks) is still sent to the classifier and
    upserted, at no charge. *)
Theorem quota_reached (R : runtime) (srv : services) (i : nat)
  (meta : message_meta) (m : message) (body : string) (st : state) :
  word_count (usage_tracker st) = word_limit (usage_tracker st) →
  fetched R srv i meta m body →
  body ≠ "" →
  ((loop_iteration R srv i meta st).1 = Break ↔ has_word_char R body = true)
  ∧ (has_word_char R body = false →
     word_limit (usage_tracker st) ≠ 0 →
     word_count (usage_tracker (loop_iteration R srv i meta st).2)
     = word_count (usage_tracker st)
     ∧ trace (loop_iteration R srv i meta st).2
       = trace st ++
           [StoreSelect i (meta_id meta); GmailGet i (meta_id meta);
            ClassifierPost i body;
            StoreUpsert i (upserted meta m body (read_scores (gptzero_post srv i body)))
              (supabase_upsert srv i
                 (upserted meta m body (read_scores (gptzero_post srv i body))));
            Sleep i 2]).
Proof.
  intros Hfull Hf Hne.
  pose proof (count_words_pos R body) as Hpos.
  pose proof (count_words_nonneg R body) as Hnn.
  destruct (has_word_char R body) eqn:Hw.
  - assert (0 < count_words R body) as Hc by by apply Hpos.
    rewrite (loop_iteration_halt R srv i meta m body) by (done || lia).
    split; [done|]. done.
  - assert (count_words R body = 0) as Hc.
    { destruct (Z.eq_dec (count_words R body) 0) as [|Hn]; [done|].
      assert (0 < count_words R body) as Hp by lia.
      apply Hpos in Hp. done. }
    split.
    + destruct (decide (word_limit (usage_tracker st) = 0)) as [Hz|Hnz].
      * rewrite (loop_iteration_zero_limit R srv i meta m body) by (done || lia).
        done.
      * rewrite (loop_iteration_score R srv i meta m body) by (done || lia).
        done.
    + intros _ Hnz.
      rewrite (loop_iteration_score R srv i meta m body) by (done || lia).
      simpl. split; [lia|done].
Qed.

Lemma quota_reached_witness :
  word_count (usage_tracker Edge.exhausted) = word_limit (usage_tracker Edge.exhausted)
  ∧ fetched Edge.cpython Edge.mailbox 1 Sample.m1 Edge.bangs "!!!"
  ∧ "!!!" ≠ ""
  ∧ ((loop_iteration Edge.cpython Edge.mailbox 1 Sample.m1 Edge.exhausted).1 = Break
     ↔ has_word_char Edge.cpython "!!!" = true)
  ∧ (has_word_char Edge.cpython "!!!" = false →
     word_limit (usage_tracker Edge.exhausted) ≠ 0 →
     word_count (usage_tracker
       (loop_iteration Edge.cpython Edge.mailbox 1 Sample.m1 Edge.exhausted).2)
     = word_count (usage_tracker Edge.exhausted)
     ∧ trace (loop_iteration Edge.cpython Edge.mailbox 1 Sample.m1 Edge.exhausted).2
       = trace Edge.exhausted ++
           [StoreSelect 1 "m1"; GmailGet 1 "m1"; ClassifierPost 1 "!!!";
            StoreUpsert 1
              {| message_id := "m1"; sender := "ann@example.org"; body := "!!!";
                 gpt_zero_ai := Some (4 # 5)%Q; gpt_zero_human := Some (1 # 5)%Q |}
              true;
            Sleep 1 2]).
Proof.
  assert (fetched Edge.cpython Edge.mailbox 1 Sample.m1 Edge.bangs "!!!") as Hf
    by (repeat split; reflexivity).
  assert ("!!!" ≠ "") as Hne by discriminate.
  split; [reflexivity|]. split; [exact Hf|]. split; [exact Hne|].
  exact (quota_reached Edge.cpython Edge.mailbox 1 Sample.m1 Edge.bangs "!!!"
           Edge.exhausted eq_refl Hf Hne).
Defined.

Lemma loop_iteration_zero_limit_posts R srv i meta st :
  word_limit (usage_tracker st) = 0 →
  word_limit (usage_tracker (loop_iteration R srv i meta st).2) = 0
  ∧ count_events is_post (trace (loop_iteration R srv i meta st).2)
    = count_events is_post (trace st).
Proof.
  intros Hz.
  destruct (loop_iteration_path R srv i meta st); simpl;
    rewrite ?count_events_app; unfold count_events; simpl; try done;
    (split; [done|lia]).
Qed.

(** X17. With a limit of zero no request is ever made to the classifier:
    a run upserts nothing and counts no message as processed or as skipped
    for the rate limit. *)
Theorem no_request_without_quota (R : runtime) (srv : services)
  (ut : UsageTracker) (messages : list message_meta) :
  word_limit ut = 0 →
  count_events is_post (trace (process_messages R srv ut messages).2) = 0
  ∧ count_events is_upsert (trace (process_messages R srv ut messages).2) = 0
  ∧ processed (stats (process_messages R srv ut messages).2) = 0
  ∧ skipped_rate_limit (stats (process_messages R srv ut messages).2) = 0.
Proof.
  intros Hz. unfold process_messages. cbn [snd].
  pose proof (for_loop_invariant R srv (λ st,
    word_limit (usage_tracker st) = 0
    ∧ count_events is_post (trace st) = 0
    ∧ count_events is_upsert (trace st) = count_events is_post (trace st)
    ∧ count_events is_post (trace st)
      = processed (stats st) + skipped_rate_limit (stats st)
    ∧ 0 <= processed (stats st) ∧ 0 <= skipped_rate_limit (stats st))) as Hinv.
  destruct (Hinv) with (messages := messages) (i := 1%nat) (st := initial_state ut)
    as (H0 & H1 & H2 & H3 & H4 & H5).
  - intros i meta st (H0 & H1 & H2 & H3 & H4 & H5).
    destruct (loop_iteration_zero_limit_posts R srv i meta st H0) as [K0 K1].
    destruct (loop_iteration_posts R srv i meta st) as (K2 & K3 & _).
    assert (processed (stats st) <= processed (stats (loop_iteration R srv i meta st).2)
            ∧ skipped_rate_limit (stats st)
              <= skipped_rate_limit (stats (loop_iteration R srv i meta st).2))
      as [P1 P2].
    { destruct (loop_iteration_path R srv i meta st); simpl;
        try (destruct (read_scores _) as [[?|] [?|]]; simpl); lia. }
    split; [done|]. lia.
  - simpl. change (count_events is_post []) with 0.
    change (count_events is_upsert []) with 0. split; [done|]. lia.
  - lia.
Qed.

Lemma no_request_without_quota_witness :
  word_limit (UsageTracker_init 0) = 0
  ∧ count_events is_post
      (trace (process_messages Edge.cpython Edge.mailbox (UsageTracker_init 0)
                [Sample.m1; Sample.m2]).2) = 0
  ∧ count_events is_upsert
      (trace (process_messages Edge.cpython Edge.mailbox (UsageTracker_init 0)
                [Sample.m1; Sample.m2]).2) = 0
  ∧ processed
      (stats (process_messages Edge.cpython Edge.mailbox (UsageTracker_init 0)
                [Sample.m1; Sample.m2]).2) = 0
  ∧ skipped_rate_limit
      (stats (process_messages Edge.cpython Edge.mailbox (UsageTracker_init 0)
                [Sample.m1; Sample.m2]).2) = 0.
Proof.
  split; [reflexivity|].
  apply (no_request_without_quota Edge.cpython Edge.mailbox (UsageTracker_init 0)
           [Sample.m1; Sample.m2]).
  reflexivity.
Defined.

(** ** The environment and the search query *)

Lemma filter_nil_iff {A : Type} (p : A → bool) (l : list A) :
  List.filter p l = [] ↔ ∀ x, x ∈ l → p x = false.
Proof.
  induction l as [|a l IH]; simpl.
  - split; [|done]. intros _ x Hx. by apply elem_of_nil in Hx.
  - destruct (p a) eqn:Ha.
    + split; [done|]. intros H. specialize (H a (list_elem_of_here _ _)).
      congruence.
    + rewrite IH. split.
      * intros H x Hx. apply elem_of_cons in Hx as [->|Hx]; auto.
      * intros H x Hx. apply H. by right.
Qed.

Lemma env_unset_false env var :
  env_unset env var = false ↔ ∃ value, env !! var = Some value ∧ value ≠ "".
Proof.
  unfold env_unset. destruct (env !! var) as [value|].
  - rewrite String.eqb_neq. split; [eauto|]. by intros (v & [= <-] & Hv).
  - split; [done|]. by intros (v & ? & _).
Qed.

(** X18. The check at load time passes exactly when each of the five
    required variables is set to a string that is not empty; otherwise it
    raises with a message that names the variables that are unset or
    empty, and only those. *)
Theorem load_environment_checks (env : gmap string string) :
  (load_environment env = inr tt
   ↔ ∀ var, var ∈ required_vars → ∃ value, env !! var = Some value ∧ value ≠ "")
  ∧ ∀ message,
      load_environment env = inl message →
      message = "Missing required environment variables: "
                +:+ join ", " (missing_vars env)
      ∧ missing_vars env ≠ []
      ∧ ∀ var, var ∈ missing_vars env
               ↔ var ∈ required_vars ∧ env_unset env var = true.
Proof.
  split.
  - transitivity (missing_vars env = []).
    + unfold load_environment. by destruct (missing_vars env).
    + unfold missing_vars. rewrite filter_nil_iff.
      split; intros H var Hvar; apply env_unset_false; by apply H.
  - intros message. unfold load_environment.
    destruct (missing_vars env) as [|var0 rest] eqn:Hm; [done|].
    intros [= <-]. split; [done|]. split; [done|].
    intros var. rewrite <- Hm. unfold missing_vars.
    rewrite !list_elem_of_In. apply List.filter_In.
Qed.

Lemma join_cons sep x y rest :
  join sep (x :: y :: rest) = x +:+ sep +:+ join sep (y :: rest).
Proof. reflexivity. Qed.

Lemma split_comma_not_nil s : split_comma s ≠ [].
Proof.
  destruct s as [|c s]; simpl; [done|].
  destruct (Ascii.eqb c ","); [done|]. by destruct (split_comma s).
Qed.

Lemma join_push sep c piece pieces :
  join sep (String c piece :: pieces) = String c (join sep (piece :: pieces)).
Proof. by destruct pieces. Qed.

(** X19. Splitting the variable at its commas loses nothing: joining the
    pieces with commas gives the value back, there is one piece more than
    there are commas (so at least one, also for an empty value), and no
    piece holds a comma. *)
Theorem split_comma_round_trip (s : string) :
  join "," (split_comma s) = s
  ∧ length (split_comma s) = S (count_char "," s)
  ∧ Forall (λ piece, count_char "," piece = 0%nat) (split_comma s).
Proof.
  induction s as [|c s (IHj & IHl & IHf)]; simpl.
  { split; [done|]. split; [done|]. by repeat constructor. }
  destruct (Ascii.eqb_spec c ",") as [->|Hc].
  - pose proof (split_comma_not_nil s) as Hne.
    destruct (split_comma s) as [|piece pieces] eqn:Hs; [done|].
    split; [|split].
    + by rewrite join_cons, IHj.
    + simpl in *. lia.
    + by constructor.
  - pose proof (split_comma_not_nil s) as Hne.
    destruct (split_comma s) as [|piece pieces] eqn:Hs; [done|].
    split; [|split].
    + rewrite join_push. by rewrite IHj.
    + simpl in *. lia.
    + apply Forall_cons in IHf as [Hp Hps]. constructor; [|done].
      simpl. destruct (Ascii.eqb_spec c ","); [done|]. by rewrite Hp.
Qed.

Lemma split_comma_no_comma value :
  count_char "," value = 0%nat → split_comma value = [value].
Proof.
  induction value as [|c value IH]; simpl; [done|].
  destruct (Ascii.eqb c ","); [done|]. simpl. intros H. by rewrite IH.
Qed.

Lemma load_environment_allowed_domains env :
  load_environment env = inr tt →
  ∃ value, env !! "ALLOWED_DOMAINS" = Some value ∧ value ≠ "".
Proof.
  intros Hload. apply env_unset_false.
  assert (missing_vars env = []) as Hm.
  { unfold load_environment in Hload. by destruct (missing_vars env). }
  unfold missing_vars in Hm.
  apply (proj1 (filter_nil_iff (env_unset env) required_vars) Hm).
  do 4 apply list_elem_of_further. apply list_elem_of_here.
Qed.

(** X20. When the check at load time has passed and the variable holds a
    single domain, a value without a comma, the value is not empty, the
    list of domains is that value alone, and the search query is [from:]
    followed by it. *)
Theorem search_query_single_domain (env : gmap string string) (value : string) :
  load_environment env = inr tt →
  env !! "ALLOWED_DOMAINS" = Some value →
  count_char "," value = 0%nat →
  value ≠ ""
  ∧ ALLOWED_DOMAINS env = inr [value]
  ∧ search_query [value] = "from:" +:+ value.
Proof.
  intros Hload Henv Hcommas. split_and!.
  - destruct (load_environment_allowed_domains env Hload) as (v & Hv & Hne).
    congruence.
  - unfold ALLOWED_DOMAINS. rewrite Hload, Henv. simpl.
    by rewrite split_comma_no_comma.
  - done.
Qed.

Lemma search_query_single_domain_witness :
  load_environment (<["ALLOWED_DOMAINS" := "example.org"]> Edge.environment)
  = inr tt
  ∧ (<["ALLOWED_DOMAINS" := "example.org"]> Edge.environment) !! "ALLOWED_DOMAINS"
    = Some "example.org"
  ∧ count_char "," "example.org" = 0%nat
  ∧ "example.org" ≠ ""
  ∧ ALLOWED_DOMAINS (<["ALLOWED_DOMAINS" := "example.org"]> Edge.environment)
    = inr ["example.org"]
  ∧ search_query ["example.org"] = "from:" +:+ "example.org".
Proof.
  split; [reflexivity|]. split; [reflexivity|]. split; [reflexivity|].
  exact (search_query_single_domain
           (<["ALLOWED_DOMAINS" := "example.org"]> Edge.environment)
           "example.org" eq_refl eq_refl eq_refl).
Defined.

(** ** Concatenation of texts *)

Lemma findall_words_open_length R text : ∀ w1 w2,
  length (findall_words R (Some w1) text) = length (findall_words R (Some w2) text).
Proof.
  induction text as [|c text IH]; intros w1 w2; simpl; [done|].
  destruct (is_word_char R c); simpl; [apply IH|done].
Qed.

Lemma findall_words_open_closed R text w :
  (length (findall_words R None text)
   ≤ length (findall_words R (Some w) text)
   ≤ S (length (findall_words R None text)))%nat.
Proof.
  destruct text as [|c text]; simpl; [lia|].
  destruct (is_word_char R c); simpl; [|lia].
  rewrite (findall_words_open_length R text (w +:+ String c "")
             ("" +:+ String c "")).
  lia.
Qed.

Lemma findall_words_app_length R s1 : ∀ cur s2,
  (length (findall_words R cur (s1 +:+ s2))
   ≤ length (findall_words R cur s1) + length (findall_words R None s2)
   ≤ S (length (findall_words R cur (s1 +:+ s2))))%nat.
Proof.
  induction s1 as [|c s1 IH]; intros cur s2; simpl.
  - change ("" +:+ s2) with s2.
    destruct cur as [w|]; simpl; [|lia].
    pose proof (findall_words_open_closed R s2 w). lia.
  - destruct (is_word_char R c).
    + apply IH.
    + destruct cur; simpl; specialize (IH None s2); lia.
Qed.

(** X21. Putting two texts end to end merges at most one pair of words:
    the count of the whole is the sum of the counts or one less. *)
Theorem count_words_concat (R : runtime) (s1 s2 : string) :
  count_words R (s1 +:+ s2) <= count_words R s1 + count_words R s2
  ∧ count_words R s1 + count_words R s2 <= count_words R (s1 +:+ s2) + 1.
Proof.
  unfold count_words. pose proof (findall_words_app_length R s1 None s2). lia.
Qed.

(** ** A run over messages that are all scored *)

Lemma for_loop_all_skipped R srv messages : ∀ i st,
  (∀ k meta, messages !! k = Some meta →
             skips srv (i + k) (meta_id meta) = true) →
  usage_tracker (for_loop R srv i messages st) = usage_tracker st
  ∧ stats (for_loop R srv i messages st)
    = {| processed := processed (stats st);
         skipped_existing := skipped_existing (stats st) + Z.of_nat (length messages);
         skipped_rate_limit := skipped_rate_limit (stats st);
         errors := errors (stats st) |}
  ∧ trace (for_loop R srv i messages st)
    = trace st ++ imap (λ k meta, StoreSelect (i + k) (meta_id meta)) messages.
Proof.
  induction messages as [|meta rest IH]; intros i st Hall; simpl.
  - rewrite Z.add_0_r, app_nil_r. by destruct (stats st).
  - rewrite loop_iteration_skip
      by (specialize (Hall 0%nat meta eq_refl); by rewrite Nat.add_0_r in Hall).
    destruct (IH (S i)
                {| usage_tracker := usage_tracker st;
                   stats := incr_skipped_existing (stats st);
                   trace := trace st ++ [StoreSelect i (meta_id meta)] |})
      as (Hut & Hstats & Htrace).
    { intros k meta' Hk. rewrite Nat.add_succ_l, <- Nat.add_succ_r.
      by apply (Hall (S k)). }
    rewrite Hut, Hstats, Htrace. simpl.
    split; [done|]. split.
    + f_equal. lia.
    + rewrite <- app_assoc. simpl. rewrite Nat.add_0_r. do 2 f_equal.
      apply imap_ext. intros k meta' _. simpl. f_equal. lia.
Qed.

(** X22. A run over candidates that the store reports, each in turn, as
    existing with both scores makes one lookup per candidate and nothing
    else: nothing is fetched, sent to the classifier or upserted, the
    tracker is untouched, and every candidate is counted as skipped. *)
Theorem run_over_scored_messages (R : runtime) (srv : services)
  (ut : UsageTracker) (messages : list message_meta) :
  (∀ k meta, messages !! k = Some meta →
             skips srv (S k) (meta_id meta) = true) →
  (process_messages R srv ut messages).2
  = {| usage_tracker := ut;
       stats := {| processed := 0;
                   skipped_existing := Z.of_nat (length messages);
                   skipped_rate_limit := 0; errors := 0 |};
       trace := imap (λ k meta, StoreSelect (S k) (meta_id meta)) messages |}.
Proof.
  intros Hall. unfold process_messages. cbn [snd].
  destruct (for_loop_all_skipped R srv messages 1 (initial_state ut) Hall)
    as (Hut & Hstats & Htrace).
  destruct (for_loop R srv 1 messages (initial_state ut)) as [ut' stats' trace'].
  simpl in *. by subst.
Qed.

Lemma run_over_scored_messages_witness :
  (∀ k meta, [Sample.m1; Sample.m2] !! k = Some meta →
             skips Sample.known (S k) (meta_id meta) = true)
  ∧ (process_messages Sample.cpython Sample.known (UsageTracker_init 300000)
       [Sample.m1; Sample.m2]).2
    = {| usage_tracker := UsageTracker_init 300000;
         stats := {| processed := 0; skipped_existing := 2;
                     skipped_rate_limit := 0; errors := 0 |};
         trace := [StoreSelect 1 "m1"; StoreSelect 2 "m2"] |}.
Proof.
  assert (∀ k meta, [Sample.m1; Sample.m2] !! k = Some meta →
                    skips Sample.known (S k) (meta_id meta) = true) as Hall
    by (intros k meta _; reflexivity).
  split; [exact Hall|].
  exact (run_over_scored_messages Sample.cpython Sample.known
           (UsageTracker_init 300000) [Sample.m1; Sample.m2] Hall).
Defined.
